(** * The concurrent batch processor of general-purpose-agent 2.0

    A shallow embedding of [batch_processor.py] (the coordinator
    [process_batches], its per-item coroutine [process_single_batch] and
    [load_api_key]) and of the part of [main.py] that drives it, followed
    by the properties of the run counters, the admission semaphore, the
    result file and the cost accounting. The later parts embed what
    comes before the run: the job prompt of [main.py], the budget check
    of [context_allocator.py], the batch builder of [batch_builder.py],
    the CSV logs of [unified_logger.py] and the loader of
    [data_loader.py].

    Conventions.
    - Python [int] is [Z]; Python [float] is modelled by exact rationals
      [Q] (rounding is not modelled, sums are compared with [==]).
    - A Python [dict] whose key order matters (a result row, a decoded
      JSON object) is an association list with unique keys.
    - [json.loads] and [json.dumps] belong to the Python library; they are
      parameters of the development.
    - asyncio runs one coroutine at a time and switches only at an
      [await]. The model lets the tasks switch at every [await] and also
      between the synchronous stretches of a task (between the check of
      the header flag and the write, for one), so every interleaving of
      the program is an interleaving of the model. The three updates of
      [state] under [state_lock] contain no [await] and are single steps.
    - The interrupt handler may run between any two steps.
    - What the outside world does is an input of each step: the reply
      of the completion service, whether a file operation succeeds (an
      operation that raises leaves the file as it was) and the clock.
      The usage block of a returned completion is present and the
      logger does not raise (it guards its own file writes).
    - A pandas frame is kept row by row. The tokenizer, [row.to_json()]
      and the file system are parameters or inputs; a call that raises
      is [None]. *)

From Stdlib Require Import ZArith QArith List String Ascii Bool Lia Permutation.
From Stdlib Require Import DecimalString.
Import ListNotations.

Set Warnings "-register-all".
Open Scope string_scope.
Open Scope Z_scope.
Open Scope list_scope.

(** ** JSON values and Python dictionaries *)

Inductive json : Type :=
| JNull
| JBool (b : bool)
| JInt (z : Z)
| JFloat (q : Q)
| JStr (s : string)
| JArr (l : list json)
| JObj (kv : list (string * json)).

Definition pydict := list (string * json).

(** [d.get(k)] *)
Fixpoint dict_get (d : pydict) (k : string) : option json :=
  match d with
  | [] => None
  | (k', v) :: d' => if String.eqb k k' then Some v else dict_get d' k
  end.

(** [d[k] = v]: an existing key keeps its position, a new key goes last. *)
Fixpoint dict_set (d : pydict) (k : string) (v : json) : pydict :=
  match d with
  | [] => [(k, v)]
  | (k', v') :: d' =>
      if String.eqb k k' then (k', v) :: d' else (k', v') :: dict_set d' k v
  end.

Definition dict_keys (d : pydict) : list string := map fst d.

(** Python truth value of a decoded JSON value ([if not results]). *)
Definition truthy (j : json) : bool :=
  match j with
  | JNull => false
  | JBool b => b
  | JInt z => negb (z =? 0)
  | JFloat q => negb (Qeq_bool q 0)
  | JStr s => negb (String.eqb s EmptyString)
  | JArr l => match l with [] => false | _ => true end
  | JObj kv => match kv with [] => false | _ => true end
  end.

(** [str(n)] for an integer. *)
Definition str_of_Z (z : Z) : string := NilZero.string_of_int (Z.to_int z).

(** ** Work items, requests and responses *)

(** One row of [batches_df], as [build_batches] produces it. *)
Record batch_row := {
  batch_id : Z;
  record_json : string;
  source_file : string;
  question_context : list json;
  response_format : json;
  system_role : string
}.

Record message := { role : string; content : json }.

(** What [client.beta.chat.completions.parse] hands back: the first
    choice's content, finish reason and refusal, and the usage block. *)
Record completion := {
  msg_content : option string;
  finish_reason : string;
  refusal : option string;
  prompt_tokens : Z;
  completion_tokens : Z
}.

Inductive api_result :=
| ApiRaised
| ApiReturned (c : completion).

(** One row of the [API_Pricing] table. *)
Record pricing := {
  Model : string;
  Input_Cost_Per_Million : Q;
  Output_Cost_Per_Million : Q
}.

(** One row of the [GPA_Job_Configuration] table. *)
Record job_configuration := {
  Job_Name : string;
  job_Model : string;
  Temperature : option Q
}.

(** The file written on an empty-results failure (l.218-227). *)
Record debug_dump := {
  dump_messages : list message;
  dump_response_format : json;
  dump_content : option string;
  dump_finish_reason : string;
  dump_refusal : option string
}.

(** The shared dictionary [state] of [process_batches] (l.103-111). *)
Record RunState := {
  completed : Z;
  failed : Z;
  in_flight : Z;
  total_cost : Q;
  total_input_tokens : Z;
  total_output_tokens : Z;
  csv_file_initialized : bool
}.

(** The output CSV, line by line. *)
Inductive csv_line :=
| Header (cols : list string)
| Data (row : pydict).

(** [None]: the file does not exist. *)
Definition csv_file := option (list csv_line).

(** [DataFrame([row]).to_csv(f, index=False, mode='w')] *)
Definition to_csv_w (row : pydict) : csv_file :=
  Some [Header (dict_keys row); Data row].

(** [DataFrame([row]).to_csv(f, index=False, mode='a', header=False)] *)
Definition to_csv_a (f : csv_file) (row : pydict) : csv_file :=
  match f with
  | None => Some [Data row]
  | Some ls => Some (ls ++ [Data row])
  end.

Definition is_header (l : csv_line) : bool :=
  match l with Header _ => true | Data _ => false end.

Definition header_count (f : csv_file) : nat :=
  match f with
  | None => O
  | Some ls => List.length (filter is_header ls)
  end.


(** ** The constants of one run (l.58-60, 63, 80, 88, 100) *)

Record run_config := {
  batches_df : list batch_row;
  selected_job_name : string;
  model_name : string;
  temperature : Q;
  pricing_df : list pricing
}.

(** l.88 *)
Definition total_batches (cfg : run_config) : Z :=
  Z.of_nat (List.length (batches_df cfg)).

Definition concurrency_cap : Z := 50.

Definition output_file (cfg : run_config) : string :=
  ("Results/" ++ selected_job_name cfg ++ "_results.csv")%string.

(** ** Cost of one completion (l.234-243) *)

(** [pricing_df[pricing_df['Model'] == model_name]] *)
Definition pricing_rows (df : list pricing) (m : string) : list pricing :=
  filter (fun r => String.eqb (Model r) m) df.

Definition compute_cost (df : list pricing) (m : string)
  (ptok ctok : Z) : Q :=
  match pricing_rows df m with
  | r :: _ =>
      let input_token_cost :=
        ((inject_Z ptok / inject_Z 1000000) * Input_Cost_Per_Million r)%Q in
      let output_token_cost :=
        ((inject_Z ctok / inject_Z 1000000) * Output_Cost_Per_Million r)%Q in
      (input_token_cost + output_token_cost)%Q
  | [] => 0%Q
  end.

(** ** How a task ends, and what the coordinator reports *)

Inductive failure := ParseFailure | EmptyResult | Exception.

Inductive task_result :=
| Abandoned
| Failed (f : failure)
| Succeeded (row : pydict) (cost : Q) (ptok ctok : Z).

(** The figures of the final summary block (l.299-307); the wall-clock
    duration is left out, its divisor [max(completed, 1)] is kept. *)
Record summary := {
  sum_total_records : Z;
  sum_completed : Z;
  sum_failed : Z;
  sum_avg_divisor : Z;
  sum_input_tokens : Z;
  sum_output_tokens : Z;
  sum_total_cost : Q
}.

Section Processor.

(** [json.loads] ([None]: [JSONDecodeError]) and [json.dumps]. *)
Variable json_loads : string -> option json.
Variable json_dumps : json -> string.

(** ** The body of [process_single_batch] between two suspensions *)

Definition base_messages (role_content : json) (row : batch_row)
  : list message :=
  [ {| role := "developer"; content := role_content |};
    {| role := "user";
       content := JStr "Here is the record I want reviewed. Provide a detailed response." |};
    {| role := "user"; content := JStr ("[" ++ record_json row ++ "]")%string |} ].

Definition context_messages (row : batch_row) : list message :=
  [ {| role := "developer";
       content := JStr "Here is information you can use to help create your response:" |};
    {| role := "developer";
       content := JStr (json_dumps (JArr (question_context row))) |} ].

(** l.139-158; [None] when decoding [system_role] or reading its
    ['content'] raises. *)
Definition build_messages (row : batch_row) : option (list message) :=
  match json_loads (system_role row) with
  | Some (JObj system_role_data) =>
      match dict_get system_role_data "content" with
      | Some c =>
          match question_context row with
          | _ :: _ => Some (base_messages c row ++ context_messages row)
          | [] => Some (base_messages c row)
          end
      | None => None
      end
  | _ => None
  end.

(** l.193-196 *)
Definition response_format_dict (row : batch_row) : option json :=
  match response_format row with
  | JStr s => json_loads s
  | j => Some j
  end.

(** l.205: [response_format_dict.get('json_schema', {}).get('name', 'unknown')];
    [None] when one of the two receivers is not a dict. *)
Definition response_format_name (rfd : json) : option json :=
  match rfd with
  | JObj d =>
      match (match dict_get d "json_schema" with
             | Some j => j | None => JObj [] end) with
      | JObj d' =>
          Some (match dict_get d' "name" with
                | Some n => n | None => JStr "unknown" end)
      | _ => None
      end
  | _ => None
  end.

(** l.246-250: the first result, tagged with its provenance; [None] when
    indexing [results] or assigning into its first element raises. *)
Definition result_row (row : batch_row) (results : json) : option pydict :=
  match results with
  | JArr (JObj r0 :: _) =>
      Some (dict_set (dict_set r0 "source_file" (JStr (source_file row)))
              "batch_id" (JInt (batch_id row)))
  | _ => None
  end.

Inductive body_outcome :=
| BParseFailure
| BEmptyResults (d : debug_dump)
| BRow (r : pydict) (cost : Q) (ptok ctok : Z)
| BException.

(** l.138-250, from building the request to the row that is ready to be
    written, given what the completion call did. *)
Definition after_call (cfg : run_config) (row : batch_row)
  (res : api_result) : body_outcome :=
  match build_messages row with
  | None => BException
  | Some messages =>
      match res with
      | ApiRaised => BException
      | ApiReturned c =>
          match msg_content c with
          | None => BException
          | Some choice =>
              match json_loads choice with
              | None => BParseFailure
              | Some (JObj response_data) =>
                  let results :=
                    match dict_get response_data "results" with
                    | Some r => r
                    | None => JArr []
                    end in
                  if negb (truthy results) then
                    match response_format_dict row with
                    | Some rfd =>
                        match response_format_name rfd with
                        | Some _ =>
                            BEmptyResults
                              {| dump_messages := messages;
                                 dump_response_format := rfd;
                                 dump_content := msg_content c;
                                 dump_finish_reason := finish_reason c;
                                 dump_refusal := refusal c |}
                        | None => BException
                        end
                    | None => BException
                    end
                  else
                    let cost :=
                      compute_cost (pricing_df cfg) (model_name cfg)
                        (prompt_tokens c) (completion_tokens c) in
                    match result_row row results with
                    | Some r =>
                        BRow r cost (prompt_tokens c) (completion_tokens c)
                    | None => BException
                    end
              | Some _ => BException
              end
          end
      end
  end.

(** l.216-218 *)
Definition debug_folder (cfg : run_config) (now : string) : string :=
  ("Logs/debug/" ++ selected_job_name cfg ++ "_" ++ now)%string.

Definition debug_path (cfg : run_config) (now : string) (id : Z) : string :=
  (debug_folder cfg now ++ "/batch_" ++ str_of_Z id
     ++ "_empty_results.json")%string.

(** ** Program points of one task *)

Inductive pc :=
| PStart                                  (* l.119 *)
| PWaitSlot                               (* l.122, awaiting the semaphore *)
| PSlotHeld                               (* l.123 *)
| PEnter                                  (* l.128-135 *)
| PCall                                   (* l.137-182, awaiting the reply *)
| PParseFail                              (* l.186-189 *)
| PEmptyDump (d : debug_dump)             (* l.216-227 *)
| PEmptyFail                              (* l.229-232 *)
| PCsvWait (r : pydict) (cost : Q) (ptok ctok : Z)   (* l.253 *)
| PCsvCheck (r : pydict) (cost : Q) (ptok ctok : Z)  (* l.255 *)
| PCsvWrite (first : bool) (r : pydict) (cost : Q) (ptok ctok : Z)
                                          (* l.256-262 *)
| PUpdate (r : pydict) (cost : Q) (ptok ctok : Z)    (* l.265-270 *)
| PExcept                                 (* l.272-279 *)
| PExit (res : task_result)               (* leaving [async with semaphore] *)
| PDone (res : task_result).

Record task := { item : batch_row; at_pc : pc }.

(** What the tasks share: the [state] dictionary, the two
    synchronisation objects, the module flag and the files. *)
Record shared := {
  state : RunState;
  semaphore : Z;
  csv_lock : bool;
  shutdown_requested : bool;
  results_csv : csv_file;
  debug_files : list (string * debug_dump);
  error_log : list (failure * Z)
}.

Definition with_state (g : shared) (s : RunState) : shared :=
  {| state := s; semaphore := semaphore g; csv_lock := csv_lock g;
     shutdown_requested := shutdown_requested g;
     results_csv := results_csv g; debug_files := debug_files g;
     error_log := error_log g |}.

Definition with_semaphore (g : shared) (v : Z) : shared :=
  {| state := state g; semaphore := v; csv_lock := csv_lock g;
     shutdown_requested := shutdown_requested g;
     results_csv := results_csv g; debug_files := debug_files g;
     error_log := error_log g |}.

Definition with_csv_lock (g : shared) (b : bool) : shared :=
  {| state := state g; semaphore := semaphore g; csv_lock := b;
     shutdown_requested := shutdown_requested g;
     results_csv := results_csv g; debug_files := debug_files g;
     error_log := error_log g |}.

Definition with_shutdown (g : shared) (b : bool) : shared :=
  {| state := state g; semaphore := semaphore g; csv_lock := csv_lock g;
     shutdown_requested := b;
     results_csv := results_csv g; debug_files := debug_files g;
     error_log := error_log g |}.

Definition with_results_csv (g : shared) (f : csv_file) : shared :=
  {| state := state g; semaphore := semaphore g; csv_lock := csv_lock g;
     shutdown_requested := shutdown_requested g;
     results_csv := f; debug_files := debug_files g;
     error_log := error_log g |}.

Definition with_debug_file (g : shared) (p : string) (d : debug_dump)
  : shared :=
  {| state := state g; semaphore := semaphore g; csv_lock := csv_lock g;
     shutdown_requested := shutdown_requested g;
     results_csv := results_csv g; debug_files := debug_files g ++ [(p, d)];
     error_log := error_log g |}.

Definition with_error (g : shared) (f : failure) (id : Z) : shared :=
  {| state := state g; semaphore := semaphore g; csv_lock := csv_lock g;
     shutdown_requested := shutdown_requested g;
     results_csv := results_csv g; debug_files := debug_files g;
     error_log := error_log g ++ [(f, id)] |}.

(** The four updates of [state] made under [state_lock]. *)

(** l.129 *)
Definition enter (s : RunState) : RunState :=
  {| completed := completed s; failed := failed s;
     in_flight := in_flight s + 1;
     total_cost := total_cost s;
     total_input_tokens := total_input_tokens s;
     total_output_tokens := total_output_tokens s;
     csv_file_initialized := csv_file_initialized s |}.

(** l.187-188, l.230-231, l.278-279 *)
Definition record_failure (s : RunState) : RunState :=
  {| completed := completed s; failed := failed s + 1;
     in_flight := in_flight s - 1;
     total_cost := total_cost s;
     total_input_tokens := total_input_tokens s;
     total_output_tokens := total_output_tokens s;
     csv_file_initialized := csv_file_initialized s |}.

(** l.266-270 *)
Definition record_success (s : RunState) (cost : Q) (ptok ctok : Z)
  : RunState :=
  {| completed := completed s + 1; failed := failed s;
     in_flight := in_flight s - 1;
     total_cost := (total_cost s + cost)%Q;
     total_input_tokens := total_input_tokens s + ptok;
     total_output_tokens := total_output_tokens s + ctok;
     csv_file_initialized := csv_file_initialized s |}.

(** l.258 *)
Definition mark_initialized (s : RunState) : RunState :=
  {| completed := completed s; failed := failed s;
     in_flight := in_flight s;
     total_cost := total_cost s;
     total_input_tokens := total_input_tokens s;
     total_output_tokens := total_output_tokens s;
     csv_file_initialized := true |}.

(** What the outside world contributes to one step of a task: the reply
    of the completion service, whether a file operation succeeds, and
    the clock reading used to name the debug folder. *)
Record env := { api : api_result; io_ok : bool; now : string }.

(** One step of [process_single_batch]; [None] when the task cannot move
    (it waits for a slot or for [csv_lock], or it has returned). *)
Definition task_step (cfg : run_config) (g : shared) (t : task) (e : env)
  : option (shared * pc) :=
  let id := batch_id (item t) in
  match at_pc t with
  | PStart =>
      if shutdown_requested g then Some (g, PDone Abandoned)
      else Some (g, PWaitSlot)
  | PWaitSlot =>
      if 0 <? semaphore g
      then Some (with_semaphore g (semaphore g - 1), PSlotHeld)
      else None
  | PSlotHeld =>
      if shutdown_requested g then Some (g, PExit Abandoned)
      else Some (g, PEnter)
  | PEnter => Some (with_state g (enter (state g)), PCall)
  | PCall =>
      match after_call cfg (item t) (api e) with
      | BParseFailure => Some (with_error g ParseFailure id, PParseFail)
      | BEmptyResults d => Some (with_error g EmptyResult id, PEmptyDump d)
      | BRow r cost p c => Some (g, PCsvWait r cost p c)
      | BException => Some (g, PExcept)
      end
  | PParseFail =>
      Some (with_state g (record_failure (state g)), PExit (Failed ParseFailure))
  | PEmptyDump d =>
      if io_ok e
      then Some (with_debug_file g (debug_path cfg (now e) id) d, PEmptyFail)
      else Some (g, PExcept)
  | PEmptyFail =>
      Some (with_state g (record_failure (state g)), PExit (Failed EmptyResult))
  | PCsvWait r cost p c =>
      if csv_lock g then None
      else Some (with_csv_lock g true, PCsvCheck r cost p c)
  | PCsvCheck r cost p c =>
      Some (g, PCsvWrite (negb (csv_file_initialized (state g))) r cost p c)
  | PCsvWrite first r cost p c =>
      if io_ok e then
        if first then
          Some (with_csv_lock
                  (with_state (with_results_csv g (to_csv_w r))
                     (mark_initialized (state g))) false,
                PUpdate r cost p c)
        else
          Some (with_csv_lock
                  (with_results_csv g (to_csv_a (results_csv g) r)) false,
                PUpdate r cost p c)
      else Some (with_csv_lock g false, PExcept)
  | PUpdate r cost p c =>
      Some (with_state g (record_success (state g) cost p c),
            PExit (Succeeded r cost p c))
  | PExcept =>
      Some (with_state (with_error g Exception id) (record_failure (state g)),
            PExit (Failed Exception))
  | PExit res => Some (with_semaphore g (semaphore g + 1), PDone res)
  | PDone _ => None
  end.

(** ** The coordinator and the whole run *)

Inductive coord_pc :=
| CSpawn (rest : list batch_row)          (* l.283-287 *)
| CGather                                 (* l.290 *)
| CSettled (s : summary).                 (* l.293-313 *)

Record world := { sh : shared; tasks : list task; coord : coord_pc }.

(** What can happen next: the interrupt handler runs (l.14-18), the
    coordinator moves, or task [i] moves. *)
Inductive action :=
| Sigint
| Coord
| Run (i : nat) (e : env).

Definition is_done (t : task) : bool :=
  match at_pc t with PDone _ => true | _ => false end.

(** l.299-307 *)
Definition final_summary (cfg : run_config) (s : RunState) : summary :=
  {| sum_total_records := total_batches cfg;
     sum_completed := completed s;
     sum_failed := failed s;
     sum_avg_divisor := Z.max (completed s) 1;
     sum_input_tokens := total_input_tokens s;
     sum_output_tokens := total_output_tokens s;
     sum_total_cost := total_cost s |}.

Fixpoint upd {A : Type} (i : nat) (x : A) (l : list A) : list A :=
  match l, i with
  | [], _ => []
  | _ :: l', O => x :: l'
  | y :: l', S i' => y :: upd i' x l'
  end.

Definition exec (cfg : run_config) (w : world) (a : action) : option world :=
  match a with
  | Sigint =>
      Some {| sh := with_shutdown (sh w) true;
              tasks := tasks w; coord := coord w |}
  | Coord =>
      match coord w with
      | CSpawn [] =>
          Some {| sh := sh w; tasks := tasks w; coord := CGather |}
      | CSpawn (row :: rest) =>
          if shutdown_requested (sh w)
          then Some {| sh := sh w; tasks := tasks w; coord := CGather |}
          else Some {| sh := sh w;
                       tasks := tasks w ++ [ {| item := row; at_pc := PStart |} ];
                       coord := CSpawn rest |}
      | CGather =>
          if forallb is_done (tasks w)
          then Some {| sh := sh w; tasks := tasks w;
                       coord := CSettled (final_summary cfg (state (sh w))) |}
          else None
      | CSettled _ => None
      end
  | Run i e =>
      match coord w with
      | CGather =>
          match nth_error (tasks w) i with
          | Some t =>
              match task_step cfg (sh w) t e with
              | Some (g', pc') =>
                  Some {| sh := g';
                          tasks := upd i {| item := item t; at_pc := pc' |}
                                     (tasks w);
                          coord := CGather |}
              | None => None
              end
          | None => None
          end
      | _ => None
      end
  end.

(** l.85-112 *)
Definition initial_state : RunState :=
  {| completed := 0; failed := 0; in_flight := 0; total_cost := 0%Q;
     total_input_tokens := 0; total_output_tokens := 0;
     csv_file_initialized := false |}.

(** The world when the task-creation loop is about to start; [flag] is
    the interrupt flag at that moment and [f] the result file left by
    earlier runs. *)
Definition init (cfg : run_config) (flag : bool) (f : csv_file) : world :=
  {| sh := {| state := initial_state; semaphore := concurrency_cap;
              csv_lock := false; shutdown_requested := flag;
              results_csv := f; debug_files := []; error_log := [] |};
     tasks := [];
     coord := CSpawn (batches_df cfg) |}.

(** A schedule is played from left to right; an action that is not
    enabled is skipped. *)
Fixpoint run (cfg : run_config) (w : world) (sched : list action) : world :=
  match sched with
  | [] => w
  | a :: sched' =>
      match exec cfg w a with
      | Some w' => run cfg w' sched'
      | None => run cfg w sched'
      end
  end.

Inductive steps (cfg : run_config) (w : world) : world -> Prop :=
| steps_refl : steps cfg w w
| steps_step a w' w'' :
    steps cfg w w' -> exec cfg w' a = Some w'' -> steps cfg w w''.

Definition reachable (cfg : run_config) (w : world) : Prop :=
  exists flag f, steps cfg (init cfg flag f) w.

(** ** [process_batches] before the tasks are created (l.37-91) *)

Inductive log_level := DEBUG | INFO | WARNING | ERROR | CRITICAL.

(** The two tables of [dataframes_dict] that the processor reads. *)
Record dataframes := {
  GPA_Job_Configuration : option (list job_configuration);
  API_Pricing : option (list pricing)
}.

(** [Configuration_Files/API_Keys.csv]: [None] when it cannot be read,
    otherwise its data rows, each with its [API_Key] cell if it has one. *)
Definition api_keys_csv := option (list (option string)).

(** l.319-342 *)
Definition load_api_key (f : api_keys_csv) : option string :=
  match f with
  | Some (Some k :: _) => Some k
  | _ => None
  end.

Inductive prologue_result :=
| Return (lvl : log_level) (msg : string)
| Start (cfg : run_config) (api_key : string).

Definition process_batches_prologue (batches : list batch_row)
  (dataframes_dict : dataframes) (job : string) (keys : api_keys_csv)
  : prologue_result :=
  match batches with
  | [] => Return WARNING "No batches to process."
  | _ :: _ =>
      match GPA_Job_Configuration dataframes_dict with
      | None =>
          Return ERROR "GPA_Job_Configuration not found in dataframes_dict"
      | Some job_config_df =>
          match filter (fun r => String.eqb (Job_Name r) job) job_config_df with
          | [] =>
              Return ERROR
                ("Job configuration for " ++ job ++ " not found")%string
          | job_config :: _ =>
              match API_Pricing dataframes_dict with
              | None =>
                  Return ERROR
                    "API_Pricing configuration not found in dataframes_dict"
              | Some pricing =>
                  match load_api_key keys with
                  | Some (String c k) =>
                      Start {| batches_df := batches;
                               selected_job_name := job;
                               model_name := job_Model job_config;
                               temperature :=
                                 match Temperature job_config with
                                 | Some t => t
                                 | None => 1%Q
                                 end;
                               pricing_df := pricing |}
                            (String c k)
                  | _ => Return ERROR "Failed to load API key"
                  end
              end
          end
      end
  end.

(** What a call of [process_batches] amounts to. *)
Inductive pb_outcome :=
| EarlyReturn (lvl : log_level) (msg : string)
| Completed (api_key : string) (w : world).

(** [process_batches], driven by a schedule; [None] when the schedule
    ends before the coordinator has settled. *)
Definition process_batches (batches : list batch_row)
  (dataframes_dict : dataframes) (job : string) (keys : api_keys_csv)
  (flag : bool) (f : csv_file) (sched : list action) : option pb_outcome :=
  match process_batches_prologue batches dataframes_dict job keys with
  | Return lvl msg => Some (EarlyReturn lvl msg)
  | Start cfg k =>
      let w := run cfg (init cfg flag f) sched in
      match coord w with
      | CSettled _ => Some (Completed k w)
      | _ => None
      end
  end.

(** ** [main], from the configuration directory to the exit status *)

(** data_loader.py, l.7-12 *)
Definition required_config_files : list string :=
  [ "GPA_Job_Configuration.csv"; "GPA_Questions.csv"; "API_Keys.csv";
    "API_Pricing.csv" ].

(** The check [load_data] makes first (data_loader.py, l.27-39), given
    the names found in [Configuration_Files] ([None]: no such
    directory); when it fails [load_data] ends the process with
    status 1. *)
Definition config_files_complete (config_files : option (list string))
  : bool :=
  match config_files with
  | None => false
  | Some names =>
      forallb (fun required => existsb (String.eqb required) names)
        required_config_files
  end.

Record main_inputs := {
  m_config_files : option (list string);
  m_dataframes : dataframes;           (* what [load_data] returned *)
  m_selected_job : string;             (* what the user picked *)
  m_context_allocation : bool;         (* is [allocate_context]'s result true? *)
  m_batches : list batch_row;          (* what [build_batches] returned *)
  m_api_keys : api_keys_csv;
  m_flag : bool;
  m_results_csv : csv_file
}.

(** main.py, l.72-128: exit status and, when [process_batches] was
    called and came back, what it did. *)
Definition main (i : main_inputs) (sched : list action)
  : option (Z * option pb_outcome) :=
  if negb (config_files_complete (m_config_files i)) then Some (1, None)
  else
    match GPA_Job_Configuration (m_dataframes i) with
    | None => Some (1, None)
    | Some _ =>
        if negb (m_context_allocation i) then Some (1, None)
        else
          match m_batches i with
          | [] => Some (1, None)
          | _ :: _ =>
              match process_batches (m_batches i) (m_dataframes i)
                      (m_selected_job i) (m_api_keys i) (m_flag i)
                      (m_results_csv i) sched with
              | Some o => Some (0, Some o)
              | None => None
              end
          end
    end.

(** * The vocabulary of the proofs *)

(** ** Steps *)

(** The sum of a weight over the program points of all tasks. *)
Fixpoint tsum (f : pc -> Z) (l : list task) : Z :=
  match l with
  | [] => 0
  | t :: l' => f (at_pc t) + tsum f l'
  end.

(** The six ways in which [exec] takes [w] to [w']; in a step of a
    task the list of tasks changes at one place. *)
Inductive step_kind (cfg : run_config) (w w' : world) : Prop :=
| K_sigint :
    w' = {| sh := with_shutdown (sh w) true; tasks := tasks w;
            coord := coord w |} ->
    step_kind cfg w w'
| K_spawn_end :
    coord w = CSpawn [] ->
    w' = {| sh := sh w; tasks := tasks w; coord := CGather |} ->
    step_kind cfg w w'
| K_spawn_break row rest :
    coord w = CSpawn (row :: rest) ->
    shutdown_requested (sh w) = true ->
    w' = {| sh := sh w; tasks := tasks w; coord := CGather |} ->
    step_kind cfg w w'
| K_spawn row rest :
    coord w = CSpawn (row :: rest) ->
    shutdown_requested (sh w) = false ->
    w' = {| sh := sh w;
            tasks := tasks w ++ [ {| item := row; at_pc := PStart |} ];
            coord := CSpawn rest |} ->
    step_kind cfg w w'
| K_settle :
    coord w = CGather ->
    forallb is_done (tasks w) = true ->
    w' = {| sh := sh w; tasks := tasks w;
            coord := CSettled (final_summary cfg (state (sh w))) |} ->
    step_kind cfg w w'
| K_task l1 t l2 e g' pc' :
    coord w = CGather ->
    tasks w = l1 ++ t :: l2 ->
    task_step cfg (sh w) t e = Some (g', pc') ->
    w' = {| sh := g';
            tasks := l1 ++ {| item := item t; at_pc := pc' |} :: l2;
            coord := CGather |} ->
    step_kind cfg w w'.

(** Case analysis on one step of a task. *)
Ltac task_cases H :=
  match type of H with
  | task_step _ _ ?t _ = Some _ =>
      let row := fresh "row" in
      let p := fresh "p" in
      destruct t as [row p]; destruct p; cbn in H;
      repeat match type of H with
        | context [if ?c then _ else _] => destruct c eqn:?
        | context [match after_call ?a ?b ?c with _ => _ end] =>
            destruct (after_call a b c) eqn:?
        end;
      try discriminate H;
      injection H as <- <-
  end.

(** ** Weights of program points *)

(** The task holds one slot of the semaphore. *)
Definition holds_slot (p : pc) : Z :=
  match p with
  | PStart | PWaitSlot | PDone _ => 0
  | _ => 1
  end.

(** The task has incremented [in_flight] and not yet decremented it. *)
Definition flying (p : pc) : Z :=
  match p with
  | PCall | PParseFail | PEmptyDump _ | PEmptyFail | PCsvWait _ _ _ _
  | PCsvCheck _ _ _ _ | PCsvWrite _ _ _ _ _ | PUpdate _ _ _ _ | PExcept => 1
  | _ => 0
  end.

(** How the task has left the body, once it has. *)
Definition result_of (p : pc) : option task_result :=
  match p with
  | PExit r | PDone r => Some r
  | _ => None
  end.

(** The task has added one to [completed], to [failed], to neither. *)
Definition counted_completed (p : pc) : Z :=
  match result_of p with Some (Succeeded _ _ _ _) => 1 | _ => 0 end.

Definition counted_failed (p : pc) : Z :=
  match result_of p with Some (Failed _) => 1 | _ => 0 end.


(** The task is inside the [csv_lock] section. *)
Definition in_csv (p : pc) : Z :=
  match p with
  | PCsvCheck _ _ _ _ | PCsvWrite _ _ _ _ _ => 1
  | _ => 0
  end.

(** The tokens the task has added to the two totals. *)
Definition tokens_in (p : pc) : Z :=
  match result_of p with Some (Succeeded _ _ ptok _) => ptok | _ => 0 end.

Definition tokens_out (p : pc) : Z :=
  match result_of p with Some (Succeeded _ _ _ ctok) => ctok | _ => 0 end.

(** The task has passed the second check of the flag (l.123). *)
Definition cleared (p : pc) : Z :=
  match p with
  | PStart | PWaitSlot | PSlotHeld => 0
  | PExit Abandoned | PDone Abandoned => 0
  | _ => 1
  end.

(** ** Invariants *)

(** Every shared counter is the sum of a weight over the tasks. *)
Record counters_inv (w : world) : Prop := {
  ci_in_flight : in_flight (state (sh w)) = tsum flying (tasks w);
  ci_semaphore :
    semaphore (sh w) + tsum holds_slot (tasks w) = concurrency_cap;
  ci_sem_nonneg : 0 <= semaphore (sh w);
  ci_completed : completed (state (sh w)) = tsum counted_completed (tasks w);
  ci_failed : failed (state (sh w)) = tsum counted_failed (tasks w);
  ci_csv_lock : Z.b2z (csv_lock (sh w)) = tsum in_csv (tasks w);
  ci_tokens_in : total_input_tokens (state (sh w)) = tsum tokens_in (tasks w);
  ci_tokens_out :
    total_output_tokens (state (sh w)) = tsum tokens_out (tasks w)
}.












(** ** Work left *)

(** Steps a task still has to make, at most. *)
Definition pc_rank (p : pc) : nat :=
  match p with
  | PStart => 10
  | PWaitSlot => 9
  | PSlotHeld => 8
  | PEnter => 7
  | PCall => 6
  | PCsvWait _ _ _ _ => 5
  | PCsvCheck _ _ _ _ => 4
  | PCsvWrite _ _ _ _ _ | PEmptyDump _ => 3
  | PUpdate _ _ _ _ | PParseFail | PEmptyFail | PExcept => 2
  | PExit _ => 1
  | PDone _ => 0
  end.

(** Steps the coordinator still has to make, with eleven for each task
    it may still create. *)
Definition coord_rank (c : coord_pc) : nat :=
  match c with
  | CSpawn rest => 2 + 11 * List.length rest
  | CGather => 1
  | CSettled _ => 0
  end.

Fixpoint rank_sum (l : list task) : nat :=
  match l with
  | [] => 0
  | t :: l' => pc_rank (at_pc t) + rank_sum l'
  end.

Definition work (w : world) : nat :=
  (coord_rank (coord w) + rank_sum (tasks w))%nat.

(** Can the task move? *)
Definition enabled (g : shared) (p : pc) : bool :=
  match p with
  | PWaitSlot => 0 <? semaphore g
  | PCsvWait _ _ _ _ => negb (csv_lock g)
  | PDone _ => false
  | _ => true
  end.

(** ** Cancellation *)


(** The number of actions of a schedule, interrupts apart, that are
    carried out. *)
Fixpoint moves (cfg : run_config) (w : world) (sched : list action) : nat :=
  match sched with
  | [] => 0
  | a :: sched' =>
      match exec cfg w a with
      | Some w' =>
          (match a with Sigint => 0 | _ => 1 end + moves cfg w' sched')%nat
      | None => moves cfg w sched'
      end
  end.

(** * Properties *)

(** ** Lists of tasks *)

Lemma upd_split {A : Type} (l : list A) (i : nat) (t : A) :
  nth_error l i = Some t ->
  exists l1 l2, l = l1 ++ t :: l2 /\ List.length l1 = i /\
                forall x, upd i x l = l1 ++ x :: l2.
Proof.
  revert i; induction l as [|y l IH]; intros [|i] H; simpl in H; try discriminate.
  - injection H as ->. exists [], l. repeat split.
  - destruct (IH i H) as (l1 & l2 & -> & Hlen & Hupd).
    exists (y :: l1), l2. simpl. repeat split; [congruence|].
    intros x. now rewrite Hupd.
Qed.

Lemma tsum_app f l1 l2 : tsum f (l1 ++ l2) = tsum f l1 + tsum f l2.
Proof. induction l1; simpl; lia. Qed.

Lemma tsum_mid f l1 t l2 :
  tsum f (l1 ++ t :: l2) = tsum f l1 + f (at_pc t) + tsum f l2.
Proof. rewrite tsum_app. simpl. lia. Qed.

Lemma tsum_nonneg f l : (forall p, 0 <= f p) -> 0 <= tsum f l.
Proof. intros Hf. induction l; simpl; [lia | specialize (Hf (at_pc a)); lia]. Qed.

Lemma tsum_le f g l : (forall p, f p <= g p) -> tsum f l <= tsum g l.
Proof. intros Hfg. induction l; simpl; [lia | specialize (Hfg (at_pc a)); lia]. Qed.




Lemma tsum_pos_exists f l :
  0 < tsum f l -> exists i t, nth_error l i = Some t /\ 0 < f (at_pc t).
Proof.
  induction l as [|t l IH]; simpl; intros H; [lia|].
  destruct (Z_lt_dec 0 (f (at_pc t))) as [Hp|Hn].
  - exists O, t. split; [reflexivity | exact Hp].
  - destruct IH as (i & t' & Hi & Hp); [lia|].
    exists (S i), t'. split; assumption.
Qed.

(** ** The shape of a step *)

Lemma exec_inv cfg w a w' : exec cfg w a = Some w' -> step_kind cfg w w'.
Proof.
  destruct a as [| |i e]; simpl.
  - intros [= <-]. now apply K_sigint.
  - destruct (coord w) as [[|row rest]| |s] eqn:Hc; try discriminate.
    + intros [= <-]. now apply K_spawn_end.
    + destruct (shutdown_requested (sh w)) eqn:Hs; intros [= <-].
      * now apply (K_spawn_break cfg w _ row rest).
      * now apply (K_spawn cfg w _ row rest).
    + destruct (forallb is_done (tasks w)) eqn:Hd; [|discriminate].
      intros [= <-]. now apply K_settle.
  - destruct (coord w) eqn:Hc; try discriminate.
    destruct (nth_error (tasks w) i) as [t|] eqn:Hi; [|discriminate].
    destruct (task_step cfg (sh w) t e) as [[g' pc']|] eqn:Ht; [|discriminate].
    intros [= <-].
    destruct (upd_split _ _ _ Hi) as (l1 & l2 & Hl & _ & Hupd).
    rewrite Hupd. now apply (K_task cfg w _ l1 t l2 e g' pc').
Qed.

Lemma steps_inv_ind cfg (P : world -> Prop) w0 :
  P w0 ->
  (forall w w', P w -> step_kind cfg w w' -> P w') ->
  forall w, steps cfg w0 w -> P w.
Proof.
  intros H0 Hstep w Hs. induction Hs as [|a w' w'' Hs IH Hex].
  - exact H0.
  - eapply Hstep; [exact IH | eapply exec_inv; exact Hex].
Qed.

Lemma steps_trans cfg w1 w2 w3 :
  steps cfg w1 w2 -> steps cfg w2 w3 -> steps cfg w1 w3.
Proof.
  intros H12 H23. induction H23; [assumption | econstructor; eassumption].
Qed.

Lemma steps_run cfg w sched : steps cfg w (run cfg w sched).
Proof.
  revert w. induction sched as [|a sched IH]; intros w; simpl.
  - constructor.
  - destruct (exec cfg w a) as [w'|] eqn:Hex; [|apply IH].
    eapply steps_trans; [|apply IH].
    econstructor; [constructor | exact Hex].
Qed.

(** ** Ranges of the weights *)


Lemma in_csv_range p : 0 <= in_csv p <= 1.
Proof. destruct p; simpl; lia. Qed.




(** ** The counters count the tasks *)

Lemma counters_init cfg flag f : counters_inv (init cfg flag f).
Proof. constructor; reflexivity || (cbn; unfold concurrency_cap; lia). Qed.

Lemma counters_step cfg w w' :
  counters_inv w -> step_kind cfg w w' -> counters_inv w'.
Proof.
  intros [H1 H2 H3 H4 H5 H6 H7 H8] Hk.
  destruct Hk as [-> | _ -> | ? ? _ _ -> | ? ? _ _ -> | _ _ ->
                 | l1 t l2 e g' pc' _ Hl Ht ->];
    try (constructor; cbn; rewrite ?tsum_app; cbn; lia).
  rewrite Hl, !tsum_mid in *.
  pose proof (tsum_nonneg in_csv l1 (fun p => proj1 (in_csv_range p))).
  pose proof (tsum_nonneg in_csv l2 (fun p => proj1 (in_csv_range p))).
  task_cases Ht; constructor; cbn in *; rewrite ?tsum_mid; cbn;
    destruct (csv_lock (sh w)); cbn in *; try discriminate; lia.
Qed.

Lemma counters_steps cfg flag f w :
  steps cfg (init cfg flag f) w -> counters_inv w.
Proof.
  apply steps_inv_ind; [apply counters_init | apply counters_step].
Qed.

Lemma counters_reachable cfg w : reachable cfg w -> counters_inv w.
Proof. intros (flag & f & Hs). eapply counters_steps; eassumption. Qed.

(** ** The interrupt flag *)




(** ** The task list follows [batches_df] *)







(** ** Counting the work items *)






(** ** What a task carries after a successful reply *)

Lemma dict_get_set d k v : dict_get (dict_set d k v) k = Some v.
Proof.
  induction d as [|[k' v'] d IH]; simpl.
  - now rewrite String.eqb_refl.
  - destruct (String.eqb k k') eqn:E; simpl; rewrite E; [reflexivity | exact IH].
Qed.

Lemma dict_get_set_other d k v k' :
  k <> k' -> dict_get (dict_set d k v) k' = dict_get d k'.
Proof.
  intros Hne. induction d as [|[k0 v0] d IH]; simpl.
  - destruct (String.eqb k' k) eqn:E; [|reflexivity].
    apply String.eqb_eq in E. congruence.
  - destruct (String.eqb k k0) eqn:E; simpl.
    + apply String.eqb_eq in E. subst k0.
      destruct (String.eqb k' k) eqn:E'; [|reflexivity].
      apply String.eqb_eq in E'. congruence.
    + destruct (String.eqb k' k0); [reflexivity | exact IH].
Qed.



Lemma Forall_mid {A : Type} (P : A -> Prop) l1 x l2 :
  Forall P (l1 ++ x :: l2) <-> Forall P l1 /\ P x /\ Forall P l2.
Proof.
  rewrite Forall_app. split.
  - intros [H1 H2]. inversion H2; subst. auto.
  - intros (H1 & Hx & H2). split; [assumption | constructor; assumption].
Qed.



(** ** The result file *)












(** ** Cost accounting *)






Lemma compute_cost_priced df m r rows ptok ctok :
  pricing_rows df m = r :: rows ->
  compute_cost df m ptok ctok
  = ((inject_Z ptok / inject_Z 1000000) * Input_Cost_Per_Million r
     + (inject_Z ctok / inject_Z 1000000) * Output_Cost_Per_Million r)%Q.
Proof. unfold compute_cost. now intros ->. Qed.

Lemma compute_cost_unpriced df m ptok ctok :
  pricing_rows df m = [] -> compute_cost df m ptok ctok = 0%Q.
Proof. unfold compute_cost. now intros ->. Qed.


(** ** Every run can be brought to its summary *)

Lemma rank_sum_app l1 l2 :
  rank_sum (l1 ++ l2) = (rank_sum l1 + rank_sum l2)%nat.
Proof. induction l1; cbn; lia. Qed.

Lemma task_step_rank cfg g t e g' pc' :
  task_step cfg g t e = Some (g', pc') ->
  (pc_rank pc' < pc_rank (at_pc t))%nat.
Proof. intros Ht. task_cases Ht; cbn; lia. Qed.

(** Every step other than an interrupt uses up work. *)
Lemma work_decreases cfg w a w' :
  exec cfg w a = Some w' -> a <> Sigint -> (work w' < work w)%nat.
Proof.
  destruct a as [| |i e]; cbn; intros H Ha; [congruence| |].
  - unfold work.
    destruct (coord w) as [[|row rest]| |s]; try discriminate.
    + injection H as <-. cbn. lia.
    + destruct (shutdown_requested (sh w)); injection H as <-; cbn;
        rewrite ?rank_sum_app; cbn; lia.
    + destruct (forallb is_done (tasks w)); [|discriminate].
      injection H as <-. cbn. lia.
  - destruct (coord w) eqn:Hc; try discriminate.
    destruct (nth_error (tasks w) i) as [t|] eqn:Hi; [|discriminate].
    destruct (task_step cfg (sh w) t e) as [[g' pc']|] eqn:Ht; [|discriminate].
    injection H as <-.
    destruct (upd_split _ _ _ Hi) as (l1 & l2 & Hl & _ & Hupd).
    apply task_step_rank in Ht.
    unfold work. cbn. rewrite Hupd, Hc, Hl, !rank_sum_app. cbn. lia.
Qed.

Lemma enabled_step cfg g t e :
  enabled g (at_pc t) = true -> exists r, task_step cfg g t e = Some r.
Proof.
  unfold enabled, task_step. destruct t as [row p]; cbn.
  destruct p; intros H; try discriminate;
    repeat match goal with
      | |- context [if ?c then _ else _] => destruct c
      | |- context [match after_call ?a ?b ?c with _ => _ end] =>
          destruct (after_call a b c)
      end; try discriminate; eexists; reflexivity.
Qed.

Lemma tsum_all_zero f l :
  Forall (fun t => f (at_pc t) = 0) l -> tsum f l = 0.
Proof. induction 1; cbn; lia. Qed.

(** No deadlock: while the coordinator has not settled, the coordinator
    or some task can move. *)
Lemma progress cfg w :
  counters_inv w ->
  (forall s, coord w <> CSettled s) ->
  exists a w', a <> Sigint /\ exec cfg w a = Some w'.
Proof.
  intros Hci Hns.
  destruct (coord w) as [[|row rest]| |s] eqn:Hc.
  - exists Coord. cbn. rewrite Hc. eexists. split; [discriminate | reflexivity].
  - exists Coord. cbn. rewrite Hc.
    destruct (shutdown_requested (sh w)); eexists;
      (split; [discriminate | reflexivity]).
  - destruct (forallb is_done (tasks w)) eqn:Hd.
    + exists Coord. cbn. rewrite Hc, Hd. eexists.
      split; [discriminate | reflexivity].
    + set (dummy := {| api := ApiRaised; io_ok := true; now := EmptyString |}).
      destruct (existsb (fun t => enabled (sh w) (at_pc t)) (tasks w)) eqn:He.
      * apply existsb_exists in He as (t & Hin & Hen).
        apply In_nth_error in Hin as (i & Hi).
        destruct (enabled_step cfg _ _ dummy Hen) as ([g' pc'] & Ht).
        exists (Run i dummy). cbn. rewrite Hc, Hi, Ht. eexists.
        split; [discriminate | reflexivity].
      * exfalso.
        assert (Hno : Forall (fun t => enabled (sh w) (at_pc t) = false)
                        (tasks w)).
        { apply Forall_forall. intros t Hin.
          destruct (enabled (sh w) (at_pc t)) eqn:E; [|reflexivity].
          assert (existsb (fun t => enabled (sh w) (at_pc t)) (tasks w) = true)
            by (apply existsb_exists; eauto).
          congruence. }
        assert (Hlock : csv_lock (sh w) = false).
        { destruct (csv_lock (sh w)) eqn:El; [|reflexivity].
          pose proof (ci_csv_lock _ Hci) as H. rewrite El in H. cbn in H.
          destruct (tsum_pos_exists in_csv (tasks w)) as (i & t & Hi & Hp);
            [lia|].
          apply nth_error_In in Hi. rewrite Forall_forall in Hno.
          specialize (Hno t Hi). destruct (at_pc t); cbn in *; (lia || discriminate). }
        assert (Hfree : Forall (fun t => holds_slot (at_pc t) = 0) (tasks w)).
        { eapply Forall_impl; [|exact Hno]. intros t Hen. cbn in Hen.
          destruct (at_pc t); cbn in *; try discriminate; try reflexivity.
          rewrite Hlock in Hen. discriminate. }
        pose proof (ci_semaphore _ Hci) as Hsem.
        rewrite (tsum_all_zero _ _ Hfree) in Hsem. unfold concurrency_cap in Hsem.
        assert (Hall : forallb is_done (tasks w) = true).
        { apply forallb_forall. intros t Hin. rewrite Forall_forall in Hno.
          specialize (Hno t Hin). unfold is_done.
          destruct (at_pc t); cbn in *; try discriminate; try reflexivity.
          - apply Z.ltb_ge in Hno. lia.
          - rewrite Hlock in Hno. discriminate. }
        congruence.
  - now destruct (Hns s).
Qed.




(** No schedule carries out more moves than there is work. *)
Lemma moves_bounded cfg w sched :
  (moves cfg w sched + work (run cfg w sched) <= work w)%nat.
Proof.
  revert w. induction sched as [|a sched IH]; intros w; cbn [moves run].
  - lia.
  - destruct (exec cfg w a) as [w'|] eqn:Hex; [|apply IH].
    specialize (IH w'). destruct a as [| |i e].
    + assert (work w' = work w) by (cbn in Hex; injection Hex as <-; reflexivity).
      lia.
    + pose proof (work_decreases _ _ _ _ Hex ltac:(discriminate)). lia.
    + pose proof (work_decreases _ _ _ _ Hex ltac:(discriminate)). lia.
Qed.

(** ** Cancellation *)





(** Without the flag, admission can only be gained. *)
Lemma task_step_cleared_le cfg g t e g' pc' :
  task_step cfg g t e = Some (g', pc') ->
  cleared (at_pc t) <= cleared pc'.
Proof.
  intros Ht. task_cases Ht; cbn in *; try lia.
  all: destruct res; cbn; lia.
Qed.






(** ** The request *)

(** C7. When the role text decodes, the request is the three base
    messages (role text, fixed prompt, bracketed record) and nothing
    else if the question context is empty; if it is not empty the same
    three are followed by the announcement and the serialised context.
    No message stands for an empty context. *)
Theorem context_only_when_present row d c :
  json_loads (system_role row) = Some (JObj d) ->
  dict_get d "content" = Some c ->
  let base :=
    [ {| role := "developer"; content := c |};
      {| role := "user";
         content := JStr "Here is the record I want reviewed. Provide a detailed response." |};
      {| role := "user"; content := JStr ("[" ++ record_json row ++ "]")%string |} ] in
  (question_context row = [] -> build_messages row = Some base) /\
  (question_context row <> [] ->
   build_messages row
   = Some (base ++
           [ {| role := "developer";
                content := JStr "Here is information you can use to help create your response:" |};
             {| role := "developer";
                content := JStr (json_dumps (JArr (question_context row))) |} ])) /\
  (forall msgs, build_messages row = Some msgs ->
     (List.length msgs = 3%nat <-> question_context row = []) /\
     (List.length msgs = 5%nat <-> question_context row <> [])).
Proof.
  intros Hl Hc base. unfold build_messages, context_messages.
  rewrite Hl, Hc.
  destruct (question_context row) as [|q qs] eqn:Hq.
  - split; [reflexivity|]. split; [congruence|].
    intros msgs [= <-]. cbn. split; split; congruence || discriminate.
  - split; [discriminate|]. split; [reflexivity|].
    intros msgs [= <-]. cbn. split; split; congruence || discriminate.
Qed.

(** ** One task moves, the others stay *)




(** ** Per-item failures *)



(** ** Before the tasks are created *)

(** C10. With no batch, [process_batches] logs one warning and returns:
    the outcome is that log line alone, with no client key, no world in
    which tasks run or a file is written, and no summary. The warning
    is the outcome of an empty collection only. *)
Theorem no_batches_returns_at_once dataframes_dict job keys flag f sched :
  process_batches_prologue [] dataframes_dict job keys
  = Return WARNING "No batches to process." /\
  process_batches [] dataframes_dict job keys flag f sched
  = Some (EarlyReturn WARNING "No batches to process.") /\
  (forall b batches msg,
     process_batches (b :: batches) dataframes_dict job keys flag f sched
     <> Some (EarlyReturn WARNING msg)).
Proof.
  split; [reflexivity|]. split; [reflexivity|].
  intros b batches msg. unfold process_batches, process_batches_prologue.
  destruct (GPA_Job_Configuration dataframes_dict) as [jc|]; [|discriminate].
  destruct (filter _ jc); [discriminate|].
  destruct (API_Pricing dataframes_dict); [|discriminate].
  destruct (load_api_key keys) as [[|c k]|]; try discriminate.
  destruct (coord _); discriminate.
Qed.

(** What the sibling paths do: a required configuration file that is
    not there, or a dictionary without the job table, ends the process
    with status 1 before anything runs. *)
Lemma missing_configuration_exits_one i sched :
  config_files_complete (m_config_files i) = false \/
  GPA_Job_Configuration (m_dataframes i) = None ->
  main i sched = Some (1, None).
Proof.
  unfold main. intros [H | H].
  - now rewrite H.
  - rewrite H. now destruct (negb _).
Qed.

(** C6, as the program has it. When [main] reaches [process_batches]
    and the job has no configuration row, or the pricing table is not in
    the dictionary, or no API key can be read, [process_batches] logs an
    error and returns before any task exists, and [main] then ends with
    exit status 0. *)
Theorem config_failure_exit_status i sched jc :
  config_files_complete (m_config_files i) = true ->
  GPA_Job_Configuration (m_dataframes i) = Some jc ->
  m_context_allocation i = true ->
  m_batches i <> [] ->
  filter (fun r => String.eqb (Job_Name r) (m_selected_job i)) jc = [] \/
  API_Pricing (m_dataframes i) = None \/
  load_api_key (m_api_keys i) = None \/
  load_api_key (m_api_keys i) = Some EmptyString ->
  exists msg, main i sched = Some (0, Some (EarlyReturn ERROR msg)).
Proof.
  intros Hfiles Hjc Hctx Hb Hfail. unfold main, process_batches.
  rewrite Hfiles, Hjc, Hctx. cbn.
  destruct (m_batches i) as [|b bs] eqn:Eb; [congruence|].
  unfold process_batches_prologue. rewrite Hjc.
  destruct (filter _ jc) as [|j js].
  - eexists. reflexivity.
  - destruct (API_Pricing (m_dataframes i)) as [pr|].
    + destruct Hfail as [H | [H | [H | H]]]; try discriminate;
        rewrite H; eexists; reflexivity.
    + eexists. reflexivity.
Qed.

(** * Further properties of the run *)

(** The task has written its debug file. *)
Definition dumped (p : pc) : Z :=
  match p with
  | PEmptyFail | PExit (Failed EmptyResult) | PDone (Failed EmptyResult) => 1
  | _ => 0
  end.

(** The failure the task has logged and is bound to be counted for. *)
Definition logged_as (p : pc) : option failure :=
  match p with
  | PParseFail => Some ParseFailure
  | PEmptyDump _ | PEmptyFail => Some EmptyResult
  | PExit (Failed f) | PDone (Failed f) => Some f
  | _ => None
  end.

(** The task has an entry in the error log. *)
Definition has_logged (p : pc) : Z :=
  match logged_as p with Some _ => 1 | None => 0 end.

(** ** No deadlock, no retry *)

(** While the coordinator has not settled, the coordinator or a task can
    move, whatever the semaphore and [csv_lock] hold, and the move uses
    up work. *)
Theorem no_deadlock cfg w :
  reachable cfg w ->
  (forall s, coord w <> CSettled s) ->
  exists a w', a <> Sigint /\ exec cfg w a = Some w' /\
               (work w' < work w)%nat.
Proof.
  intros Hr Hns.
  destruct (progress cfg w (counters_reachable _ _ Hr) Hns)
    as (a & w' & Ha & Hex).
  exists a, w'. repeat split; trivial. eapply work_decreases; eassumption.
Qed.

(** From the start of the task-creation loop, no schedule carries out
    more than eleven moves for each work item and two more. *)
Theorem run_length_bounded cfg flag f sched :
  (moves cfg (init cfg flag f) sched
   <= 2 + 11 * List.length (batches_df cfg))%nat.
Proof.
  pose proof (moves_bounded cfg (init cfg flag f) sched) as H.
  unfold work in H at 2. cbn in H. lia.
Qed.

Lemma nth_error_mid_other {A : Type} (l1 l2 : list A) x y i :
  i <> List.length l1 ->
  nth_error (l1 ++ y :: l2) i = nth_error (l1 ++ x :: l2) i.
Proof.
  intros Hi. destruct (Nat.lt_ge_cases i (List.length l1)) as [Hlt|Hge].
  - now rewrite !nth_error_app1.
  - rewrite !nth_error_app2 by assumption.
    destruct (i - List.length l1)%nat eqn:E; [lia | reflexivity].
Qed.

Lemma done_cannot_step cfg g t e :
  is_done t = true -> task_step cfg g t e = None.
Proof.
  unfold is_done, task_step. destruct (at_pc t); try discriminate. reflexivity.
Qed.

(** A task that has returned stays as it is: no item is taken up again. *)
Theorem returned_task_is_final cfg w w' i t :
  steps cfg w w' ->
  nth_error (tasks w) i = Some t ->
  is_done t = true ->
  nth_error (tasks w') i = Some t.
Proof.
  intros Hs Hi Hd. induction Hs as [|a w1 w2 Hs IH Hex]; [exact Hi|].
  destruct (exec_inv _ _ _ _ Hex)
    as [-> | _ -> | ? ? _ _ -> | ? ? _ _ -> | _ _ ->
       | l1 t0 l2 e g' pc' _ Hl Ht ->]; cbn; trivial.
  - rewrite nth_error_app1; [exact IH|].
    apply nth_error_Some. congruence.
  - rewrite Hl in IH.
    destruct (Nat.eq_dec i (List.length l1)) as [->|Hne].
    + rewrite nth_error_app2, Nat.sub_diag in IH by lia. cbn in IH.
      injection IH as ->. rewrite (done_cannot_step _ _ _ _ Hd) in Ht.
      discriminate.
    + rewrite (nth_error_mid_other l1 l2 t0) by assumption. exact IH.
Qed.

(** ** What a settled run leaves behind *)


(** If the interrupt flag is already raised when the loop starts, no
    task is ever created, the counters stay at 0, the result file is not
    touched, and the summary still reports the number of records. *)
Theorem raised_flag_dispatches_nothing cfg f w :
  steps cfg (init cfg true f) w ->
  tasks w = [] /\
  state (sh w) = initial_state /\
  results_csv (sh w) = f /\
  (forall s, coord w = CSettled s ->
     sum_total_records s = total_batches cfg /\
     sum_completed s = 0 /\ sum_failed s = 0).
Proof.
  intros Hs.
  assert (H : shutdown_requested (sh w) = true /\ tasks w = [] /\
              state (sh w) = initial_state /\ results_csv (sh w) = f /\
              (forall s, coord w = CSettled s ->
                         s = final_summary cfg initial_state)).
  { revert w Hs.
    apply (steps_inv_ind cfg
             (fun w => shutdown_requested (sh w) = true /\ tasks w = [] /\
                       state (sh w) = initial_state /\
                       results_csv (sh w) = f /\
                       (forall s, coord w = CSettled s ->
                                  s = final_summary cfg initial_state))).
    - cbn. repeat split; trivial. discriminate.
    - intros w w' (Hf & Ht & Hst & Hfile & Hsum)
        [-> | _ -> | ? ? _ _ -> | ? ? _ Hf' -> | _ _ ->
        | l1 t l2 e g' pc' _ Hl _ ->]; cbn;
        try (repeat split; trivial; discriminate).
      + congruence.
      + repeat split; trivial. intros s [= <-]. now rewrite Hst.
      + rewrite Ht in Hl. now destruct l1. }
  destruct H as (_ & Ht & Hst & Hfile & Hsum).
  repeat split; trivial; rewrite (Hsum s H); reflexivity.
Qed.

(** ** Tokens and cost *)





(** ** Provenance *)

(** The row written for an item is the first result of the reply with
    [source_file] and [batch_id] set from the work item, also when the
    reply has these keys itself; every other field of the first result
    is kept, and further results are dropped. *)
Theorem provenance_overrides_reply row r0 rest :
  exists r,
    result_row row (JArr (JObj r0 :: rest)) = Some r /\
    dict_get r "batch_id" = Some (JInt (batch_id row)) /\
    dict_get r "source_file" = Some (JStr (source_file row)) /\
    (forall k, k <> "source_file" -> k <> "batch_id" ->
               dict_get r k = dict_get r0 k) /\
    result_row row (JArr [JObj r0]) = Some r.
Proof.
  eexists. split; [reflexivity|]. split; [apply dict_get_set|]. split.
  - rewrite dict_get_set_other by discriminate. apply dict_get_set.
  - split; [|reflexivity]. intros k H1 H2.
    rewrite !dict_get_set_other by congruence. reflexivity.
Qed.

(** ** Debug files and the error log *)

Lemma dumped_range p : 0 <= dumped p <= 1.
Proof. destruct p as [| | | | | | | | | | | | |[| [] |]|[| [] |]]; cbn; lia. Qed.

(** Where every debug file comes from. *)
Definition dump_of_task (cfg : run_config) (l : list task)
  (file : string * debug_dump) : Prop :=
  exists clock t,
    In t l /\ dumped (at_pc t) = 1 /\
    fst file = debug_path cfg clock (batch_id (item t)).

Lemma dump_of_task_step cfg g t0 e g' pc' l1 l2 file :
  task_step cfg g t0 e = Some (g', pc') ->
  dump_of_task cfg (l1 ++ t0 :: l2) file ->
  dump_of_task cfg (l1 ++ {| item := item t0; at_pc := pc' |} :: l2) file.
Proof.
  intros Ht (clock & t & Hin & Hd & Hp).
  apply in_app_or in Hin as [Hin | [<- | Hin]].
  - exists clock, t. repeat split; trivial. apply in_or_app. now left.
  - exists clock, {| item := item t0; at_pc := pc' |}. repeat split; trivial.
    + apply in_or_app. right. now left.
    + task_cases Ht; cbn in *; lia.
  - exists clock, t. repeat split; trivial. apply in_or_app. right. now right.
Qed.

Lemma dumps_step cfg w w' :
  Z.of_nat (List.length (debug_files (sh w))) = tsum dumped (tasks w) /\
  Forall (dump_of_task cfg (tasks w)) (debug_files (sh w)) ->
  step_kind cfg w w' ->
  Z.of_nat (List.length (debug_files (sh w'))) = tsum dumped (tasks w') /\
  Forall (dump_of_task cfg (tasks w')) (debug_files (sh w')).
Proof.
  intros [Hn Hall] [-> | _ -> | ? ? _ _ -> | ? ? _ _ -> | _ _ ->
                   | l1 t l2 e g' pc' _ Hl Ht ->]; cbn; try (split; assumption).
  - split; [rewrite tsum_app; cbn; lia|].
    eapply Forall_impl; [|exact Hall].
    intros file (clock & t & Hin & Hd & Hp). exists clock, t.
    repeat split; trivial. apply in_or_app. now left.
  - rewrite Hl in *. rewrite tsum_mid in Hn. rewrite tsum_mid.
    assert (Hold : Forall (dump_of_task cfg
                             (l1 ++ {| item := item t; at_pc := pc' |} :: l2))
                     (debug_files (sh w))).
    { eapply Forall_impl; [|exact Hall].
      intros file. eapply dump_of_task_step; eassumption. }
    clear Hall. pose proof Ht as Ht'.
    task_cases Ht; cbn in *; try (split; [lia | exact Hold]).
    split; [rewrite length_app, Nat2Z.inj_add; cbn; lia|].
    apply Forall_app. split; [exact Hold|]. repeat constructor.
    exists (now e), {| item := row; at_pc := PEmptyFail |}.
    repeat split. apply in_or_app. right. now left.
Qed.

(** Every debug file was written by a task that then fails for an empty
    result, under a name made of the clock and that task's batch id, and
    there are as many debug files as such tasks; a task that has
    returned is one of them exactly when its result is the empty-result
    failure. *)
Theorem one_debug_file_per_empty_result cfg flag f w :
  steps cfg (init cfg flag f) w ->
  Z.of_nat (List.length (debug_files (sh w))) = tsum dumped (tasks w) /\
  Forall (dump_of_task cfg (tasks w)) (debug_files (sh w)) /\
  (forall t, is_done t = true ->
             (dumped (at_pc t) = 1 <-> at_pc t = PDone (Failed EmptyResult))).
Proof.
  intros Hs.
  assert (H : Z.of_nat (List.length (debug_files (sh w)))
              = tsum dumped (tasks w) /\
              Forall (dump_of_task cfg (tasks w)) (debug_files (sh w))).
  { revert w Hs.
    apply (steps_inv_ind cfg
             (fun w => Z.of_nat (List.length (debug_files (sh w)))
                       = tsum dumped (tasks w) /\
                       Forall (dump_of_task cfg (tasks w))
                         (debug_files (sh w)))).
    - cbn. split; [reflexivity | constructor].
    - intros w w'. apply dumps_step. }
  destruct H as [Hn Hall]. repeat split; trivial.
  - unfold is_done in H. destruct (at_pc t) as [| | | | | | | | | | | | | |[|[]|]];
      try discriminate; cbn in *; intros; (reflexivity || lia).
  - intros ->. reflexivity.
Qed.

Lemma has_logged_range p : 0 <= has_logged p <= 1.
Proof. unfold has_logged. destruct (logged_as p); lia. Qed.

(** The entry of a task in the error log. *)
Definition logged (log : list (failure * Z)) (t : task) : Prop :=
  forall f, logged_as (at_pc t) = Some f -> In (f, batch_id (item t)) log.

Lemma logged_more log extra t : logged log t -> logged (log ++ extra) t.
Proof. intros H f Hf. apply in_or_app. left. now apply H. Qed.

Lemma log_step cfg w w' :
  Forall (logged (error_log (sh w))) (tasks w) /\
  tsum has_logged (tasks w) <= Z.of_nat (List.length (error_log (sh w))) ->
  step_kind cfg w w' ->
  Forall (logged (error_log (sh w'))) (tasks w') /\
  tsum has_logged (tasks w') <= Z.of_nat (List.length (error_log (sh w'))).
Proof.
  intros [Hall Hn] [-> | _ -> | ? ? _ _ -> | ? ? _ _ -> | _ _ ->
                   | l1 t l2 e g' pc' _ Hl Ht ->]; cbn; try (split; assumption).
  - split; [|rewrite tsum_app; cbn; lia].
    apply Forall_app. split; [exact Hall|]. repeat constructor.
    intros f. discriminate.
  - rewrite Hl in *. rewrite tsum_mid in Hn. rewrite tsum_mid.
    apply Forall_mid in Hall as (H1 & Hx & H2).
    assert (Hgrow : forall extra,
               Forall (logged (error_log (sh w) ++ extra)) l1 /\
               Forall (logged (error_log (sh w) ++ extra)) l2).
    { intros extra. split; (eapply Forall_impl; [|eassumption]);
        intros t'; apply logged_more. }
    pose proof (Hgrow [(ParseFailure, batch_id (item t))]) as [Hp1 Hp2].
    pose proof (Hgrow [(EmptyResult, batch_id (item t))]) as [He1 He2].
    pose proof (Hgrow [(Exception, batch_id (item t))]) as [Hx1 Hx2].
    unfold has_logged in *.
    task_cases Ht; cbn in *;
      rewrite ?length_app, ?Nat2Z.inj_add; cbn;
      (split; [apply Forall_mid; repeat split; trivial | try lia]);
      try (intros f; cbn; intros [= <-]; apply in_or_app; right; now left);
      try (intros f; cbn; discriminate);
      try (intros f Hf; apply Hx; exact Hf).
Qed.

(** Every item counted as failed has an entry in the error log with its
    failure and its batch id, so the log has at least [failed] entries;
    a task that has not failed yet but has logged is bound for [failed]
    too. *)
Theorem every_failure_is_logged cfg flag f w :
  steps cfg (init cfg flag f) w ->
  Forall (fun t => forall fl,
            result_of (at_pc t) = Some (Failed fl) ->
            In (fl, batch_id (item t)) (error_log (sh w))) (tasks w) /\
  failed (state (sh w)) <= Z.of_nat (List.length (error_log (sh w))).
Proof.
  intros Hs.
  assert (H : Forall (logged (error_log (sh w))) (tasks w) /\
              tsum has_logged (tasks w)
              <= Z.of_nat (List.length (error_log (sh w)))).
  { revert w Hs.
    apply (steps_inv_ind cfg
             (fun w => Forall (logged (error_log (sh w))) (tasks w) /\
                       tsum has_logged (tasks w)
                       <= Z.of_nat (List.length (error_log (sh w))))).
    - cbn. split; [constructor | lia].
    - intros w w'. apply log_step. }
  destruct H as [Hall Hn]. split.
  - eapply Forall_impl; [|exact Hall]. intros t Ht fl Hres. apply Ht.
    revert Hres. destruct (at_pc t); cbn; try discriminate;
      intros [= ->]; reflexivity.
  - assert (Hr : reachable cfg w) by (exists flag, f; exact Hs).
    rewrite (ci_failed _ (counters_reachable _ _ Hr)).
    eapply Z.le_trans; [|exact Hn]. apply tsum_le.
    intros p. unfold counted_failed, has_logged.
    destruct p as [| | | | | | | | | | | | |[]|[]]; cbn; lia.
Qed.

(** ** The exit status of [main] *)


(** * Choosing the job (main.py, l.11-41) *)

(** [Series.unique()]: the values in order of first appearance. *)
Fixpoint unique (l : list string) : list string :=
  match l with
  | [] => []
  | x :: l' => x :: filter (fun y => negb (String.eqb x y)) (unique l')
  end.

(** The lines of l.25-27. *)
Fixpoint job_lines (idx : Z) (job_names : list string) : list string :=
  match job_names with
  | [] => []
  | job :: rest =>
      (str_of_Z idx ++ ". " ++ job)%string :: job_lines (idx + 1) rest
  end.

(** Is the number typed one of the menu (l.33)? *)
Definition on_menu (job_names : list string) (job_index : Z) : bool :=
  (1 <=? job_index) && (job_index <=? Z.of_nat (List.length job_names)).

(** The loop of l.30-41 over what is typed at the prompt, each answer
    as [int(input(...))] gives it ([None]: [ValueError]): the warnings
    logged and the job returned, [None] while the prompt still waits. *)
Fixpoint prompt_loop (job_names : list string) (answers : list (option Z))
  : list string * option string :=
  match answers with
  | [] => ([], None)
  | Some job_index :: rest =>
      if on_menu job_names job_index
      then ([], nth_error job_names (Z.to_nat (job_index - 1)))
      else
        let (warnings, selected) := prompt_loop job_names rest in
        (("Invalid input. Please select a number between 1 and "
          ++ str_of_Z (Z.of_nat (List.length job_names)) ++ ".")%string
         :: warnings, selected)
  | None :: rest =>
      let (warnings, selected) := prompt_loop job_names rest in
      ("Invalid input. Please enter a valid number." :: warnings, selected)
  end.

Record prompt_outcome := {
  menu : list string;
  warnings : list string;
  selected_job : option string
}.

Definition prompt_user_for_job (job_config_df : list job_configuration)
  (answers : list (option Z)) : prompt_outcome :=
  let job_names := unique (map Job_Name job_config_df) in
  let (ws, job) := prompt_loop job_names answers in
  {| menu := "Available Jobs:" :: job_lines 1 job_names;
     warnings := ws;
     selected_job := job |}.

(** An answer that the loop rejects. *)
Definition rejected (job_names : list string) (a : option Z) : Prop :=
  match a with
  | None => True
  | Some job_index => on_menu job_names job_index = false
  end.



Lemma on_menu_nth job_names k :
  on_menu job_names k = true ->
  exists job, nth_error job_names (Z.to_nat (k - 1)) = Some job.
Proof.
  unfold on_menu. intros H. apply andb_true_iff in H as [H1 H2].
  apply Z.leb_le in H1, H2.
  destruct (nth_error job_names (Z.to_nat (k - 1))) as [job|] eqn:E; [eauto|].
  apply nth_error_None in E. lia.
Qed.


Lemma job_lines_nth base job_names n :
  nth_error (job_lines base job_names) n
  = option_map
      (fun job => (str_of_Z (base + Z.of_nat n) ++ ". " ++ job)%string)
      (nth_error job_names n).
Proof.
  revert base n. induction job_names as [|job rest IH]; intros base [|n];
    cbn [job_lines nth_error option_map]; try reflexivity.
  - now rewrite Z.add_0_r.
  - rewrite IH.
    replace (base + 1 + Z.of_nat n) with (base + Z.of_nat (S n)) by lia.
    reflexivity.
Qed.


(** With no job in the table no answer is ever accepted: the prompt
    warns about each one and never returns. *)
Theorem empty_job_table_never_selects answers :
  selected_job (prompt_user_for_job [] answers) = None /\
  List.length (warnings (prompt_user_for_job [] answers))
  = List.length answers.
Proof.
  unfold prompt_user_for_job. cbn.
  induction answers as [|[k|] rest IH]; cbn; [split; reflexivity| |].
  - replace (on_menu [] k) with false
      by (unfold on_menu; cbn; destruct (1 <=? k) eqn:E1; cbn; trivial;
          symmetry; apply Z.leb_gt; apply Z.leb_le in E1; lia).
    destruct (prompt_loop [] rest) as [ws sel]. cbn in *.
    destruct IH as [-> ->]. split; reflexivity.
  - destruct (prompt_loop [] rest) as [ws sel]. cbn in *.
    destruct IH as [-> ->]. split; reflexivity.
Qed.

(** The first answer on the menu decides: the answers rejected before
    it cost one warning each, what is typed after it is not read, and
    the job returned is the one listed under that number. *)
Theorem first_valid_answer_decides job_config_df refused k later :
  Forall (rejected (unique (map Job_Name job_config_df))) refused ->
  on_menu (unique (map Job_Name job_config_df)) k = true ->
  let out := prompt_user_for_job job_config_df (refused ++ Some k :: later) in
  selected_job out
  = nth_error (unique (map Job_Name job_config_df)) (Z.to_nat (k - 1)) /\
  (exists job, selected_job out = Some job) /\
  List.length (warnings out) = List.length refused /\
  nth_error (menu out) (Z.to_nat k)
  = option_map (fun job => (str_of_Z k ++ ". " ++ job)%string)
      (selected_job out).
Proof.
  intros Href Hk out. subst out. unfold prompt_user_for_job.
  set (job_names := unique (map Job_Name job_config_df)) in *.
  assert (Hloop : prompt_loop job_names (refused ++ Some k :: later)
                  = (fst (prompt_loop job_names (refused ++ Some k :: later)),
                     nth_error job_names (Z.to_nat (k - 1))) /\
                  List.length (fst (prompt_loop job_names
                                      (refused ++ Some k :: later)))
                  = List.length refused).
  { induction Href as [|a refused Ha _ IH]; cbn.
    - rewrite Hk. split; reflexivity.
    - destruct a as [j|]; cbn in Ha.
      + rewrite Ha. destruct (prompt_loop job_names _) as [ws sel].
        cbn in *. destruct IH as [[= ->] ->]. split; reflexivity.
      + destruct (prompt_loop job_names _) as [ws sel].
        cbn in *. destruct IH as [[= ->] ->]. split; reflexivity. }
  destruct Hloop as [Heq Hlen]. rewrite Heq. cbn.
  split; [reflexivity|]. split; [apply on_menu_nth; exact Hk|].
  split; [exact Hlen|].
  unfold on_menu in Hk. apply andb_true_iff in Hk as [H1 H2].
  apply Z.leb_le in H1, H2.
  replace (Z.to_nat k) with (S (Z.to_nat (k - 1))) by lia. cbn.
  rewrite job_lines_nth.
  replace (1 + Z.of_nat (Z.to_nat (k - 1))) with k by lia. reflexivity.
Qed.

End Processor.

(** * A worked run

    Three work items at $1 and $2 per million tokens: the first reply
    has one result and usage 100/50, the second has an empty [results],
    the third call raises. The decoder is a table of the texts the run
    meets. *)

Definition sample_loads (s : string) : option json :=
  if String.eqb s "role-json" then
    Some (JObj [("role", JStr "system");
                ("content", JStr "You review records.")])
  else if String.eqb s "one-result" then
    Some (JObj [("results", JArr [JObj [("answer", JStr "yes")]])])
  else if String.eqb s "no-result" then
    Some (JObj [("results", JArr [])])
  else None.

Definition sample_dumps (j : json) : string := "question-context-json".

Definition sample_format : json :=
  JObj [("type", JStr "json_schema");
        ("json_schema", JObj [("name", JStr "review")])].

Definition sample_row (id : Z) : batch_row :=
  {| batch_id := id; record_json := "record"; source_file := "records.csv";
     question_context := []; response_format := sample_format;
     system_role := "role-json" |}.

Definition sample_pricing : list pricing :=
  [ {| Model := "model-a"; Input_Cost_Per_Million := 1;
       Output_Cost_Per_Million := 2 |} ].

Definition sample_cfg : run_config :=
  {| batches_df := [sample_row 0; sample_row 1; sample_row 2];
     selected_job_name := "review"; model_name := "model-a";
     temperature := 1; pricing_df := sample_pricing |}.

Definition reply (s : string) (ptok ctok : Z) : completion :=
  {| msg_content := Some s; finish_reason := "stop"; refusal := None;
     prompt_tokens := ptok; completion_tokens := ctok |}.

Definition env_ok (c : completion) : env :=
  {| api := ApiReturned c; io_ok := true; now := "20250101_120000" |}.

Definition env_raise : env :=
  {| api := ApiRaised; io_ok := true; now := "20250101_120000" |}.


(** The three tasks take turns. *)
Definition sample_round : list action :=
  [ Run 0 (env_ok (reply "one-result" 100 50));
    Run 1 (env_ok (reply "no-result" 80 0));
    Run 2 env_raise ].

Definition sample_sched : list action :=
  repeat Coord 4 ++ List.concat (repeat sample_round 12) ++ [Coord].

Definition sample_run (sched : list action) : world :=
  run sample_loads sample_dumps sample_cfg (init sample_cfg false None) sched.

Definition sample_final : world := sample_run sample_sched.

(** After the second round: all three tasks hold a slot. *)
Definition sample_midway : world :=
  sample_run (repeat Coord 4 ++ List.concat (repeat sample_round 5)).



(** [API_Keys.csv] holds its header line and no key; everything else is
    in place. *)
Definition sample_job : job_configuration :=
  {| Job_Name := "review"; job_Model := "model-a"; Temperature := Some 1%Q |}.

Definition inputs_without_key : main_inputs :=
  {| m_config_files := Some required_config_files;
     m_dataframes := {| GPA_Job_Configuration := Some [sample_job];
                        API_Pricing := Some sample_pricing |};
     m_selected_job := "review";
     m_context_allocation := true;
     m_batches := batches_df sample_cfg;
     m_api_keys := Some [];
     m_flag := false;
     m_results_csv := None |}.

Definition sample_row_with_context : batch_row :=
  {| batch_id := 7; record_json := "record"; source_file := "records.csv";
     question_context := [JObj [("example", JStr "e1")]];
     response_format := sample_format; system_role := "role-json" |}.











(** ** The runs checked *)

Lemma sample_run_reachable sched :
  reachable sample_loads sample_dumps sample_cfg (sample_run sched).
Proof. exists false, None. apply steps_run. Qed.

(** The run of the scenario: one completed, two failed, cost 0.0002,
    one header and one row, one debug file for the second item. *)
Example sample_final_summary :
  coord sample_final
  = CSettled {| sum_total_records := 3; sum_completed := 1; sum_failed := 2;
                sum_avg_divisor := 1; sum_input_tokens := 100;
                sum_output_tokens := 50;
                sum_total_cost := total_cost (state (sh sample_final)) |} /\
  (total_cost (state (sh sample_final)) == 2 # 10000)%Q /\
  results_csv (sh sample_final)
  = Some [ Header ["answer"; "source_file"; "batch_id"];
           Data [("answer", JStr "yes"); ("source_file", JStr "records.csv");
                 ("batch_id", JInt 0)] ] /\
  map fst (debug_files (sh sample_final))
  = ["Logs/debug/review_20250101_120000/batch_1_empty_results.json"] /\
  error_log (sh sample_final) = [(EmptyResult, 1); (Exception, 2)].
Proof. vm_compute. repeat split; reflexivity. Qed.






Lemma config_failure_exit_status_witness :
  main sample_loads sample_dumps inputs_without_key sample_sched
  = Some (0, Some (EarlyReturn ERROR "Failed to load API key")).
Proof.
  destruct (config_failure_exit_status sample_loads sample_dumps
              inputs_without_key sample_sched [sample_job])
    as (msg & Hmain).
  - reflexivity.
  - reflexivity.
  - reflexivity.
  - discriminate.
  - right. right. left. reflexivity.
  - vm_compute. reflexivity.
Defined.

(** Without the key file itself the process ends with status 1. *)
Example main_without_key_file :
  main sample_loads sample_dumps
    {| m_config_files :=
         Some ["GPA_Job_Configuration.csv"; "GPA_Questions.csv";
               "API_Pricing.csv"];
       m_dataframes := m_dataframes inputs_without_key;
       m_selected_job := "review"; m_context_allocation := true;
       m_batches := batches_df sample_cfg; m_api_keys := None;
       m_flag := false; m_results_csv := None |} sample_sched
  = Some (1, None).
Proof. reflexivity. Qed.

(** With the key in place the same inputs run to the summary. *)
Example main_with_key :
  exists w,
    main sample_loads sample_dumps
      {| m_config_files := Some required_config_files;
         m_dataframes := m_dataframes inputs_without_key;
         m_selected_job := "review"; m_context_allocation := true;
         m_batches := batches_df sample_cfg;
         m_api_keys := Some [Some "sk-sample"];
         m_flag := false; m_results_csv := None |} sample_sched
    = Some (0, Some (Completed "sk-sample" w)) /\
    completed (state (sh w)) = 1 /\ failed (state (sh w)) = 2.
Proof. eexists. vm_compute. repeat split; reflexivity. Qed.

Lemma context_only_when_present_witness :
  build_messages sample_loads sample_dumps (sample_row 0)
  = Some [ {| role := "developer"; content := JStr "You review records." |};
           {| role := "user";
              content := JStr "Here is the record I want reviewed. Provide a detailed response." |};
           {| role := "user"; content := JStr "[record]" |} ] /\
  option_map (@List.length message)
    (build_messages sample_loads sample_dumps sample_row_with_context)
  = Some 5%nat.
Proof.
  split.
  - refine (proj1 (context_only_when_present sample_loads sample_dumps
                     (sample_row 0)
                     [("role", JStr "system");
                      ("content", JStr "You review records.")]
                     (JStr "You review records.") _ _) _);
      reflexivity.
  - vm_compute. reflexivity.
Defined.



(** ** Where the specification and the program part *)



(** * Further runs checked *)

(** After seven rounds the third task, whose call raised, has returned;
    the first is still between its reply and its write. *)
Definition sample_later : world :=
  sample_run (repeat Coord 4 ++ List.concat (repeat sample_round 7)).

Definition sample_later_end : world :=
  run sample_loads sample_dumps sample_cfg sample_later
    (List.concat (repeat sample_round 5) ++ [Coord]).

(** The flag is up before the first task is created; an earlier run has
    left a result file. *)
Definition sample_old_file : csv_file := Some [Header ["answer"]].

Definition sample_flag_up : world :=
  run sample_loads sample_dumps sample_cfg
    (init sample_cfg true sample_old_file) sample_sched.

(** Two configured jobs, the first named twice. *)
Definition sample_jobs : list job_configuration :=
  [ sample_job;
    {| Job_Name := "triage"; job_Model := "model-b"; Temperature := None |};
    sample_job ].

(** Not a number, a number off the menu, then the second entry. *)
Definition sample_refused : list (option Z) := [None; Some 5].

Lemma no_deadlock_witness :
  exists a w',
    a <> Sigint /\
    exec sample_loads sample_dumps sample_cfg sample_midway a = Some w' /\
    (work w' < work sample_midway)%nat.
Proof.
  apply (no_deadlock sample_loads sample_dumps sample_cfg sample_midway
           (sample_run_reachable _)).
  intros s. vm_compute. discriminate.
Defined.

Lemma returned_task_is_final_witness :
  option_map at_pc (nth_error (tasks sample_later) 2)
  = Some (PDone (Failed Exception)) /\
  nth_error (tasks sample_later_end) 2 = nth_error (tasks sample_later) 2.
Proof.
  split; [vm_compute; reflexivity|].
  destruct (nth_error (tasks sample_later) 2) as [t|] eqn:E;
    [|vm_compute in E; discriminate].
  apply (returned_task_is_final sample_loads sample_dumps sample_cfg
           sample_later sample_later_end 2 t (steps_run _ _ _ _ _) E).
  vm_compute in E. injection E as <-. reflexivity.
Defined.


Lemma raised_flag_dispatches_nothing_witness :
  tasks sample_flag_up = [] /\
  state (sh sample_flag_up) = initial_state /\
  results_csv (sh sample_flag_up) = sample_old_file /\
  coord sample_flag_up
  = CSettled (final_summary sample_cfg initial_state).
Proof.
  destruct (raised_flag_dispatches_nothing sample_loads sample_dumps
              sample_cfg sample_old_file sample_flag_up
              (steps_run _ _ _ _ _))
    as (Ht & Hs & Hf & _).
  split; [exact Ht|]. split; [exact Hs|]. split; [exact Hf|].
  vm_compute. reflexivity.
Defined.


Lemma one_debug_file_per_empty_result_witness :
  Z.of_nat (List.length (debug_files (sh sample_final)))
  = tsum dumped (tasks sample_final) /\
  tsum dumped (tasks sample_final) = 1.
Proof.
  split; [|vm_compute; reflexivity].
  exact (proj1 (one_debug_file_per_empty_result sample_loads sample_dumps
                  sample_cfg false None sample_final
                  (steps_run _ _ _ _ _))).
Defined.

Lemma every_failure_is_logged_witness :
  failed (state (sh sample_final))
  <= Z.of_nat (List.length (error_log (sh sample_final))) /\
  failed (state (sh sample_final)) = 2.
Proof.
  split; [|vm_compute; reflexivity].
  exact (proj2 (every_failure_is_logged sample_loads sample_dumps
                  sample_cfg false None sample_final
                  (steps_run _ _ _ _ _))).
Defined.



Lemma first_valid_answer_decides_witness :
  selected_job
    (prompt_user_for_job sample_jobs (sample_refused ++ Some 2 :: [Some 1]))
  = Some "triage" /\
  List.length
    (warnings
       (prompt_user_for_job sample_jobs
          (sample_refused ++ Some 2 :: [Some 1])))
  = 2%nat.
Proof.
  destruct (first_valid_answer_decides sample_jobs sample_refused 2
              [Some 1])
    as (Hsel & _ & Hw & _).
  - repeat constructor.
  - vm_compute. reflexivity.
  - split; [rewrite Hsel; vm_compute; reflexivity | exact Hw].
Defined.

(** * Before the run: the budget check and the batch builder

    [context_allocator.py] and [batch_builder.py] work on the dictionary
    of frames that [load_data] returns. A frame is kept row by row. The
    three columns the stages themselves add to a row ([source_file] by
    the loader, [json] and [token_count] by the budget check) are fields
    of their own, [None] while the column is not there; [row_columns]
    holds the columns of the file. Of the two configuration tables the
    stages read, the columns they read are typed. *)

Record context_row := {
  row_columns : pydict;
  row_source_file : option string;
  row_json : option string;
  row_token_count : option Z
}.

Definition DataFrame := list context_row.

(** [df.empty] *)
Definition df_empty (df : DataFrame) : bool :=
  match df with [] => true | _ :: _ => false end.

(** One row of [GPA_Job_Configuration] with the columns the stages read
    beside the processor's; [int(cell)] is [None] when it raises. *)
Record job_row := {
  settings : job_configuration;
  Input_Context_Limit : option Z;
  Input_Context_Overhead : option Z;
  Assistant_Role : string;
  Tool_Descriptions : json
}.

(** The [enum_file_name] cell of a question: the table has no such
    column, the cell is empty, or it names a file. *)
Inductive enum_cell :=
| NoEnumColumn
| EmptyCell
| FileName (s : string).

(** One row of [GPA_Questions]. *)
Record question := {
  q_Job_Name : string;
  Key : string;
  Description : json;
  q_Type : json;
  enum_file_name : enum_cell
}.

(** [dataframes_dict]: the two tables, and every loaded frame under its
    key, in loading order. *)
Record dataframes_dict := {
  job_table : option (list job_row);
  questions_table : option (list question);
  frames : list (string * DataFrame)
}.

Definition with_frames (d : dataframes_dict) (l : list (string * DataFrame))
  : dataframes_dict :=
  {| job_table := job_table d; questions_table := questions_table d;
     frames := l |}.

(** [df[df['Job_Name'] == selected_job_name]] *)
Definition rows_of_job (jt : list job_row) (selected_job_name : string)
  : list job_row :=
  filter (fun r => String.eqb (Job_Name (settings r)) selected_job_name) jt.

Definition is_record_name (df_name : string) : bool :=
  String.prefix "Record_Context_" df_name.

Definition is_question_name (df_name : string) : bool :=
  String.prefix "Question_Context_" df_name
  || String.prefix "GPA_Questions" df_name.

(** ** [allocate_context] (context_allocator.py, l.7-188) *)

(** [tokenizer.encode]; [None] when it raises. *)
Definition tokenizer := string -> option (list Z).

Inductive encoding_lookup :=
| Known (t : tokenizer)
| UnknownModel
| LookupFailed.

Record context_allocation := {
  Total_Question_Context_Tokens : Z;
  Max_Record_Tokens : Z;
  Available_Context : Z;
  Total_Records : Z
}.

(** [len(tokenizer.encode(s))] *)
Definition token_len (tok : tokenizer) (s : string) : option Z :=
  option_map (fun l => Z.of_nat (List.length l)) (tok s).

(** [df['token_count'].sum()]; a missing value counts for nothing. *)
Definition token_sum (df : DataFrame) : Z :=
  fold_right (fun r acc => match row_token_count r with
                           | Some n => n + acc
                           | None => acc
                           end) 0 df.

(** [max_record_tokens], from 0. *)
Definition max_tokens (l : list Z) : Z := fold_left Z.max l 0.

Section Stages.

(** [json.loads], [json.dumps], [row.to_json()],
    [tiktoken.encoding_for_model] ([UnknownModel]: [KeyError]) and
    [tiktoken.get_encoding("o200k_base")]. *)
Variable json_loads : string -> option json.
Variable json_dumps : json -> string.
Variable to_json : context_row -> string.
Variable encoding_for_model : string -> encoding_lookup.
Variable get_encoding_o200k_base : option tokenizer.

(** l.44-49 *)
Definition tokenizer_for (selected_model : string) : option tokenizer :=
  match encoding_for_model selected_model with
  | Known t => Some t
  | UnknownModel => get_encoding_o200k_base
  | LookupFailed => None
  end.

(** l.71-74, for one row. *)
Definition mark (tok : tokenizer) (row : context_row) : option context_row :=
  let json_str := to_json row in
  match token_len tok json_str with
  | Some a =>
      match token_len tok "," with
      | Some b =>
          Some {| row_columns := row_columns row;
                  row_source_file := row_source_file row;
                  row_json := Some json_str;
                  row_token_count := Some (a + b) |}
      | None => None
      end
  | None => None
  end.

(** l.66-78, for one frame. *)
Fixpoint mark_rows (tok : tokenizer) (df : DataFrame) : option DataFrame :=
  match df with
  | [] => Some []
  | row :: rest =>
      match mark tok row with
      | Some row' =>
          match mark_rows tok rest with
          | Some rest' => Some (row' :: rest')
          | None => None
          end
      | None => None
      end
  end.

(** l.56-82: the frames as the loop leaves them and the question tokens
    counted; [None] when the tokenizer raised, the frames from that one
    on being left as they were. *)
Fixpoint annotate_frames (tok : tokenizer) (l : list (string * DataFrame))
  (question_context_tokens : Z) : list (string * DataFrame) * option Z :=
  match l with
  | [] => ([], Some question_context_tokens)
  | (df_name, df) :: rest =>
      if negb (is_record_name df_name || is_question_name df_name)
         || df_empty df
      then
        let (rest', q) := annotate_frames tok rest question_context_tokens in
        ((df_name, df) :: rest', q)
      else
        match mark_rows tok df with
        | Some df' =>
            let q1 := if is_question_name df_name
                      then question_context_tokens + token_sum df'
                      else question_context_tokens in
            let (rest', q) := annotate_frames tok rest q1 in
            ((df_name, df') :: rest', q)
        | None => (l, None)
        end
  end.

(** l.85-88 *)
Definition num_question_context_dataframes (l : list (string * DataFrame))
  : Z :=
  Z.of_nat (List.length
              (filter (fun f => is_question_name (fst f)
                                && negb (df_empty (snd f))) l)).

(** The rows the validation loop visits (l.100-110). *)
Definition record_rows (l : list (string * DataFrame)) : list context_row :=
  flat_map (fun f => if is_record_name (fst f) then snd f else []) l.

(** l.111: [row['token_count'] + empty_json_token_count] for each row;
    [None] when a row has no [token_count]. *)
Fixpoint record_tokens (rows : list context_row) (empty_json_token_count : Z)
  : option (list Z) :=
  match rows with
  | [] => Some []
  | row :: rest =>
      match row_token_count row with
      | Some n =>
          match record_tokens rest empty_json_token_count with
          | Some l => Some (n + empty_json_token_count :: l)
          | None => None
          end
      | None => None
      end
  end.

(** l.117: the records that do not fit. *)
Definition records_exceeding_limit (rts : list Z)
  (question_context_tokens available_context : Z) : list Z :=
  filter (fun record_tokens =>
            available_context <? record_tokens + question_context_tokens)
         rts.

(** The dictionary as the call leaves it, and the result ([None]: the
    empty dict). [io_ok] tells whether the files of the [testing] folder
    can be written (l.168-182). *)
Definition allocate_context (d : dataframes_dict)
  (selected_job_name : string) (io_ok : bool)
  : dataframes_dict * option context_allocation :=
  match job_table d with
  | None => (d, None)
  | Some gpa_job_configuration =>
  match rows_of_job gpa_job_configuration selected_job_name with
  | [] => (d, None)
  | selected_job :: _ =>
  match Input_Context_Limit selected_job with
  | None => (d, None)
  | Some input_context_limit =>
  match Input_Context_Overhead selected_job with
  | None => (d, None)
  | Some overhead_tokens =>
  let available_context := input_context_limit - overhead_tokens in
  if available_context <=? 0 then (d, None) else
  match tokenizer_for (job_Model (settings selected_job)) with
  | None => (d, None)
  | Some tok =>
  match token_len tok "[]" with
  | None => (d, None)
  | Some empty_json_token_count =>
  let (frames', counted) := annotate_frames tok (frames d) 0 in
  let d' := with_frames d frames' in
  match counted with
  | None => (d', None)
  | Some q0 =>
  let num := num_question_context_dataframes frames' in
  let question_context_tokens :=
    if 0 <? num then q0 + num * empty_json_token_count else q0 in
  match record_tokens (record_rows frames') empty_json_token_count with
  | None => (d', None)
  | Some rts =>
  match records_exceeding_limit rts question_context_tokens
          available_context with
  | _ :: _ => (d', None)
  | [] =>
      if io_ok then
        (d', Some {| Total_Question_Context_Tokens := question_context_tokens;
                     Max_Record_Tokens := max_tokens rts;
                     Available_Context := available_context;
                     Total_Records := Z.of_nat (List.length rts) |})
      else (d', None)
  end end end end end end end end end.


(** ** [get_enum_values] (batch_builder.py, l.184-218) *)

(** [df['source_file']]; [None] when the column is not there. *)
Fixpoint source_files (df : DataFrame) : option (list string) :=
  match df with
  | [] => Some []
  | row :: rest =>
      match row_source_file row with
      | Some f =>
          match source_files rest with
          | Some l => Some (f :: l)
          | None => None
          end
      | None => None
      end
  end.

(** [enum_file_name == f]; an empty cell equals no file name. *)
Definition names_file (enum_file_name : enum_cell) (f : string) : bool :=
  match enum_file_name with
  | FileName s => String.eqb s f
  | _ => false
  end.

(** The search of l.200-203: [None] when it raises, [Some None] when no
    frame matches. *)
Fixpoint find_enum_frame (enum_file_name : enum_cell)
  (l : list (string * DataFrame)) : option (option DataFrame) :=
  match l with
  | [] => Some None
  | (df_name, df) :: rest =>
      if String.prefix "Question_Context_" df_name then
        match source_files df with
        | Some fs =>
            if existsb (names_file enum_file_name) fs
            then Some (Some df)
            else find_enum_frame enum_file_name rest
        | None => None
        end
      else find_enum_frame enum_file_name rest
  end.

(** The cell of the first column: the first column of the file, or
    [source_file] when the file has none. *)
Definition first_cell (row : context_row) : option json :=
  match row_columns row with
  | (_, v) :: _ => Some v
  | [] => option_map JStr (row_source_file row)
  end.

(** [df.iloc[:, 0]]; [None] when the frame has no column. *)
Fixpoint first_column (df : DataFrame) : option (list json) :=
  match df with
  | [] => Some []
  | row :: rest =>
      match first_cell row with
      | Some v =>
          match first_column rest with
          | Some l => Some (v :: l)
          | None => None
          end
      | None => None
      end
  end.

(** The number a cell compares as, if any. *)
Definition cell_number (j : json) : option Q :=
  match j with
  | JBool b => Some (if b then 1%Q else 0%Q)
  | JInt z => Some (inject_Z z)
  | JFloat q => Some q
  | _ => None
  end.

(** [a == b] on cells. *)
Definition cell_eqb (a b : json) : bool :=
  match a, b with
  | JNull, JNull => true
  | JStr s, JStr t => String.eqb s t
  | _, _ =>
      match cell_number a, cell_number b with
      | Some p, Some q => Qeq_bool p q
      | _, _ => false
      end
  end.

(** Lists and dicts cannot be hashed: [unique()] raises on them. *)
Definition hashable (j : json) : bool :=
  match j with
  | JArr _ | JObj _ => false
  | _ => true
  end.

(** [Series.unique().tolist()] *)
Fixpoint unique_cells (l : list json) : list json :=
  match l with
  | [] => []
  | x :: l' => x :: filter (fun y => negb (cell_eqb x y)) (unique_cells l')
  end.

Definition get_enum_values (enum_file_name : enum_cell)
  (l : list (string * DataFrame)) : list json :=
  match find_enum_frame enum_file_name l with
  | Some (Some question_context_df) =>
      match first_column question_context_df with
      | Some cells =>
          if forallb hashable cells
          then unique_cells cells ++ [JStr "No Match"]
          else []
      | None => []
      end
  | _ => []
  end.

(** ** [create_response_format] (batch_builder.py, l.90-182) *)

(** The truth value of the [enum_file_name] cell (l.137). *)
Definition enum_cell_truthy (c : enum_cell) : bool :=
  match c with
  | NoEnumColumn => false
  | EmptyCell => true
  | FileName s => negb (String.eqb s EmptyString)
  end.

(** [question_type == 'enum'] *)
Definition is_enum_type (question_type : json) : bool :=
  match question_type with
  | JStr s => String.eqb s "enum"
  | _ => false
  end.

(** l.137-148 *)
Definition question_property (l : list (string * DataFrame)) (q : question)
  : json :=
  if is_enum_type (q_Type q) && enum_cell_truthy (enum_file_name q)
  then JObj [("type", JStr "string");
             ("description", Description q);
             ("enum", JArr (get_enum_values (enum_file_name q) l))]
  else JObj [("type", q_Type q);
             ("description", Description q)].

(** l.129-148 *)
Definition properties_of (l : list (string * DataFrame))
  (questions_for_job : list question) : pydict :=
  fold_left (fun properties q =>
               dict_set properties (Key q) (question_property l q))
            questions_for_job [].

(** l.151-159 *)
Definition results_schema (properties : pydict) : json :=
  JObj [("type", JStr "array");
        ("items",
         JObj [("type", JStr "object");
               ("properties", JObj properties);
               ("required", JArr (map JStr (dict_keys properties)));
               ("additionalProperties", JBool false)])].

(** l.162-176 *)
Definition response_format_for (selected_job_name : string)
  (tool_description : json) (properties : pydict) : json :=
  JObj [("type", JStr "json_schema");
        ("json_schema",
         JObj [("name", JStr selected_job_name);
               ("description", tool_description);
               ("schema",
                JObj [("type", JStr "object");
                      ("properties",
                       JObj [("results", results_schema properties)]);
                      ("additionalProperties", JBool false);
                      ("required", JArr [JStr "results"])])])].

Definition questions_of_job (qs : list question) (selected_job_name : string)
  : list question :=
  filter (fun q => String.eqb (q_Job_Name q) selected_job_name) qs.

Definition create_response_format (d : dataframes_dict)
  (selected_job_name : string) : json :=
  match job_table d with
  | None => JObj []
  | Some gpa_job_config_df =>
      match rows_of_job gpa_job_config_df selected_job_name with
      | [] => JObj []
      | selected_job :: _ =>
          match questions_table d with
          | None => JObj []
          | Some gpa_questions_df =>
              response_format_for selected_job_name
                (Tool_Descriptions selected_job)
                (properties_of (frames d)
                   (questions_of_job gpa_questions_df selected_job_name))
          end
      end
  end.

(** ** [build_batches] (batch_builder.py, l.5-88) *)

(** A row of the frame that [build_batches] returns: the columns the
    processor reads, and [record_data]. *)
Record built_batch := {
  batch : batch_row;
  record_data : pydict
}.

(** Why [build_batches] returned an empty frame and logged an error. *)
Inductive build_error :=
| NoJobTable
| NoJobRow
| NoRecordFrames
| BuilderRaised.

(** l.37 *)
Definition record_context_dfs (d : dataframes_dict) : list DataFrame :=
  map snd (filter (fun f => is_record_name (fst f)) (frames d)).

(** l.44-50: the rows of the question frames, without the added columns. *)
Definition all_question_context (d : dataframes_dict) : list json :=
  flat_map (fun f =>
              if String.prefix "Question_Context_" (fst f)
                 && negb (df_empty (snd f))
              then map (fun row => JObj (row_columns row)) (snd f)
              else [])
           (frames d).

(** l.59-76 over the rows of all record frames; [None] when a row has
    no [json] column. *)
Fixpoint batch_rows (rows : list context_row) (batch_id : Z)
  (ctx : list json) (response_format : json) (system_role : string)
  : option (list built_batch) :=
  match rows with
  | [] => Some []
  | row :: rest =>
      match row_json row with
      | Some j =>
          match batch_rows rest (batch_id + 1) ctx response_format
                  system_role with
          | Some l =>
              Some ({| batch :=
                         {| batch_id := batch_id;
                            record_json := j;
                            source_file :=
                              match row_source_file row with
                              | Some f => f
                              | None => "unknown"
                              end;
                            question_context := ctx;
                            response_format := response_format;
                            system_role := system_role |};
                       record_data := row_columns row |} :: l)
          | None => None
          end
      | None => None
      end
  end.

(** The frame returned (no row: the empty frame) and the error logged. *)
Definition build_batches (d : dataframes_dict) (selected_job_name : string)
  : list built_batch * option build_error :=
  match job_table d with
  | None => ([], Some NoJobTable)
  | Some gpa_job_config_df =>
      match rows_of_job gpa_job_config_df selected_job_name with
      | [] => ([], Some NoJobRow)
      | selected_job :: _ =>
          let assistant_role := Assistant_Role selected_job in
          let system_role :=
            json_dumps (JObj [("role", JStr "system");
                              ("content", JStr assistant_role)]) in
          match record_context_dfs d with
          | [] => ([], Some NoRecordFrames)
          | dfs =>
              match batch_rows (List.concat dfs) 0 (all_question_context d)
                      (create_response_format d selected_job_name)
                      system_role with
              | Some rows => (rows, None)
              | None => ([], Some BuilderRaised)
              end
          end
      end
  end.

(** ** The budget check, read from its inputs *)

Arguments is_record_name : simpl never.
Arguments is_question_name : simpl never.

(** [len(tokenizer.encode(s))] where the call returns. *)
Definition len_of (tok : tokenizer) (s : string) : Z :=
  match token_len tok s with Some n => n | None => 0 end.

(** The tokens charged for one row: its JSON text and a comma. *)
Definition row_tokens (tok : tokenizer) (row : context_row) : Z :=
  len_of tok (to_json row) + len_of tok ",".

(** The row with its two added columns. *)
Definition marked (tok : tokenizer) (row : context_row) : context_row :=
  {| row_columns := row_columns row;
     row_source_file := row_source_file row;
     row_json := Some (to_json row);
     row_token_count := Some (row_tokens tok row) |}.

Definition marked_frame (tok : tokenizer) (f : string * DataFrame)
  : string * DataFrame :=
  if is_record_name (fst f) || is_question_name (fst f)
  then (fst f, map (marked tok) (snd f))
  else f.

Definition zsum (l : list Z) : Z := fold_right Z.add 0 l.

(** The rows of the frames counted as question context. *)
Definition question_rows (l : list (string * DataFrame)) : list context_row :=
  flat_map (fun f => if is_question_name (fst f) then snd f else []) l.

(** What is charged to every request: the rows of the question frames
    and a pair of brackets for each frame that has rows. *)
Definition question_budget (tok : tokenizer) (l : list (string * DataFrame))
  (empty_json_token_count : Z) : Z :=
  zsum (map (row_tokens tok) (question_rows l))
  + num_question_context_dataframes l * empty_json_token_count.

Arguments zsum : simpl never.
Arguments question_rows : simpl never.

(** The tokenizer returns on every text. *)
Definition total_tokenizer (tok : tokenizer) : Prop :=
  forall s, tok s <> None.

Lemma token_len_nonneg tok s n : token_len tok s = Some n -> 0 <= n.
Proof.
  unfold token_len. destruct (tok s); cbn; [|discriminate].
  intros [= <-]. lia.
Qed.

Lemma len_of_nonneg tok s : 0 <= len_of tok s.
Proof.
  unfold len_of. destruct (token_len tok s) eqn:E; [|lia].
  eapply token_len_nonneg; eassumption.
Qed.

Lemma row_tokens_nonneg tok row : 0 <= row_tokens tok row.
Proof.
  unfold row_tokens.
  pose proof (len_of_nonneg tok (to_json row)).
  pose proof (len_of_nonneg tok ","). lia.
Qed.

Lemma mark_marked tok row row' :
  mark tok row = Some row' ->
  row' = marked tok row /\
  token_len tok (to_json row) = Some (len_of tok (to_json row)) /\
  token_len tok "," = Some (len_of tok ",").
Proof.
  unfold mark, marked, row_tokens, len_of.
  destruct (token_len tok (to_json row)) as [a|]; [|discriminate].
  destruct (token_len tok ",") as [b|]; [|discriminate].
  intros [= <-]. repeat split.
Qed.

Lemma mark_total tok row :
  total_tokenizer tok -> mark tok row = Some (marked tok row).
Proof.
  intros Ht. unfold mark, marked, row_tokens, len_of, token_len.
  destruct (tok (to_json row)) eqn:E1; [|now apply Ht in E1].
  destruct (tok ",") eqn:E2; [|now apply Ht in E2].
  reflexivity.
Qed.

Lemma mark_rows_marked tok df df' :
  mark_rows tok df = Some df' ->
  df' = map (marked tok) df /\
  Forall (fun row => mark tok row = Some (marked tok row)) df.
Proof.
  revert df'. induction df as [|row rest IH]; cbn; intros df'.
  - intros [= <-]. split; constructor.
  - destruct (mark tok row) as [row'|] eqn:E; [|discriminate].
    destruct (mark_rows tok rest) as [rest'|]; [|discriminate].
    intros [= <-]. destruct (IH _ eq_refl) as [-> HF].
    destruct (mark_marked _ _ _ E) as (-> & _).
    split; [reflexivity|]. constructor; assumption.
Qed.

Lemma mark_rows_total tok df :
  total_tokenizer tok -> mark_rows tok df = Some (map (marked tok) df).
Proof.
  intros Ht. induction df as [|row rest IH]; cbn; [reflexivity|].
  rewrite (mark_total _ _ Ht), IH. reflexivity.
Qed.

Lemma token_sum_marked tok df :
  token_sum (map (marked tok) df) = zsum (map (row_tokens tok) df).
Proof.
  induction df as [|row rest IH]; cbn; [reflexivity|].
  unfold token_sum in IH. rewrite IH. reflexivity.
Qed.

Lemma df_empty_map (f : context_row -> context_row) df :
  df_empty (map f df) = df_empty df.
Proof. destruct df; reflexivity. Qed.

Lemma zsum_app l1 l2 : zsum (l1 ++ l2) = zsum l1 + zsum l2.
Proof.
  unfold zsum. induction l1 as [|x l1 IH]; cbn; [reflexivity|].
  rewrite IH. lia.
Qed.

(** The rows of a frame that the first loop has to tokenize. *)
Definition rows_to_mark (l : list (string * DataFrame)) : list context_row :=
  flat_map (fun f => if is_record_name (fst f) || is_question_name (fst f)
                     then snd f else []) l.

Arguments rows_to_mark : simpl never.

Lemma question_rows_cons df_name df rest :
  question_rows ((df_name, df) :: rest)
  = (if is_question_name df_name then df else []) ++ question_rows rest.
Proof. reflexivity. Qed.

Lemma rows_to_mark_cons df_name df rest :
  rows_to_mark ((df_name, df) :: rest)
  = (if is_record_name df_name || is_question_name df_name
     then df else []) ++ rows_to_mark rest.
Proof. reflexivity. Qed.

Lemma zsum_nil : zsum [] = 0.
Proof. reflexivity. Qed.

(** The first loop, when it comes to its end. *)
Lemma annotate_frames_marked tok l q l' q' :
  annotate_frames tok l q = (l', Some q') ->
  l' = map (marked_frame tok) l /\
  q' = q + zsum (map (row_tokens tok) (question_rows l)) /\
  Forall (fun row => mark tok row = Some (marked tok row)) (rows_to_mark l).
Proof.
  revert q l' q'. induction l as [|[df_name df] rest IH]; intros q l' q'.
  - cbn. intros [= <- <-]. repeat split.
    + unfold zsum, question_rows. cbn. lia.
    + unfold rows_to_mark. cbn. constructor.
  - rewrite question_rows_cons, rows_to_mark_cons, map_app, zsum_app.
    cbn [annotate_frames map]. unfold marked_frame at 1. cbn [fst snd].
    destruct (is_record_name df_name || is_question_name df_name) eqn:Ec;
      cbn [negb orb].
    + destruct df as [|row df0].
      * cbn [df_empty]. destruct (annotate_frames tok rest q) as [rest' qr] eqn:Er.
        intros [= <- ->]. destruct (IH _ _ _ Er) as (-> & -> & HF).
        split; [reflexivity|]. split; [|exact HF].
        destruct (is_question_name df_name); cbn [map]; rewrite ?zsum_nil; lia.
      * cbn [df_empty].
        destruct (mark_rows tok (row :: df0)) as [df'|] eqn:Em;
          [|discriminate].
        destruct (mark_rows_marked _ _ _ Em) as [-> HFm].
        match goal with
        | |- context [annotate_frames tok rest ?q1] =>
            destruct (annotate_frames tok rest q1) as [rest' qr] eqn:Er
        end.
        intros [= <- ->]. destruct (IH _ _ _ Er) as (-> & -> & HF).
        split; [reflexivity|]. split.
        -- destruct (is_question_name df_name).
           ++ rewrite token_sum_marked. lia.
           ++ cbn [map]; rewrite ?zsum_nil; lia.
        -- apply Forall_app. split; assumption.
    + destruct (annotate_frames tok rest q) as [rest' qr] eqn:Er.
      intros [= <- ->]. destruct (IH _ _ _ Er) as (-> & -> & HF).
      split; [reflexivity|]. split; [|exact HF].
      apply Bool.orb_false_iff in Ec as [_ ->]. cbn [map]; rewrite ?zsum_nil; lia.
Qed.

Lemma annotate_frames_total tok l q :
  total_tokenizer tok ->
  annotate_frames tok l q
  = (map (marked_frame tok) l,
     Some (q + zsum (map (row_tokens tok) (question_rows l)))).
Proof.
  intros Ht. revert q. induction l as [|[df_name df] rest IH]; intros q.
  - cbn. f_equal. f_equal. unfold zsum, question_rows. cbn. lia.
  - rewrite question_rows_cons, map_app, zsum_app.
    cbn [annotate_frames map]. unfold marked_frame at 1. cbn [fst snd].
    destruct (is_record_name df_name || is_question_name df_name) eqn:Ec;
      cbn [negb orb].
    + destruct df as [|row df0].
      * cbn [df_empty]. rewrite IH. f_equal. f_equal.
        destruct (is_question_name df_name); cbn [map]; rewrite ?zsum_nil; lia.
      * cbn [df_empty]. rewrite (mark_rows_total _ _ Ht), IH.
        f_equal. f_equal.
        destruct (is_question_name df_name).
        -- rewrite token_sum_marked. lia.
        -- cbn [map]; rewrite ?zsum_nil; lia.
    + rewrite IH. f_equal. f_equal.
      apply Bool.orb_false_iff in Ec as [_ ->]. cbn [map]; rewrite ?zsum_nil; lia.
Qed.

Lemma num_question_marked tok l :
  num_question_context_dataframes (map (marked_frame tok) l)
  = num_question_context_dataframes l.
Proof.
  unfold num_question_context_dataframes. apply f_equal.
  induction l as [|[df_name df] rest IH]; [reflexivity|].
  cbn [map filter].
  replace (is_question_name (fst (marked_frame tok (df_name, df)))
           && negb (df_empty (snd (marked_frame tok (df_name, df)))))
    with (is_question_name df_name && negb (df_empty df)).
  { cbn [fst snd].
    destruct (is_question_name df_name && negb (df_empty df));
      cbn [List.length]; rewrite IH; reflexivity. }
  unfold marked_frame. cbn [fst snd].
  destruct (is_record_name df_name || is_question_name df_name);
    cbn [fst snd]; [rewrite df_empty_map|]; reflexivity.
Qed.

Lemma record_rows_marked tok l :
  record_rows (map (marked_frame tok) l) = map (marked tok) (record_rows l).
Proof.
  unfold record_rows.
  induction l as [|[df_name df] rest IH]; cbn; [reflexivity|].
  rewrite map_app, IH. f_equal.
  unfold marked_frame. cbn.
  destruct (is_record_name df_name) eqn:Er; cbn; [rewrite Er|]; cbn.
  - reflexivity.
  - destruct (is_question_name df_name); cbn; rewrite Er; reflexivity.
Qed.

Lemma record_tokens_marked tok rows e :
  record_tokens (map (marked tok) rows) e
  = Some (map (fun row => row_tokens tok row + e) rows).
Proof.
  induction rows as [|row rest IH]; cbn; [reflexivity|].
  rewrite IH. reflexivity.
Qed.

Lemma record_rows_to_mark l row :
  In row (record_rows l) -> In row (rows_to_mark l).
Proof.
  unfold record_rows, rows_to_mark. rewrite !in_flat_map.
  intros ([df_name df] & Hin & Hr). exists (df_name, df). split; [exact Hin|].
  cbn in *. destruct (is_record_name df_name); [exact Hr|destruct Hr].
Qed.

Lemma in_record_rows l df_name df row :
  In (df_name, df) l -> is_record_name df_name = true -> In row df ->
  In row (record_rows l).
Proof.
  intros Hin Hn Hr. unfold record_rows. apply in_flat_map.
  exists (df_name, df). split; [exact Hin|]. cbn. rewrite Hn. exact Hr.
Qed.

Lemma exceeding_nil rts q avail :
  records_exceeding_limit rts q avail = [] <->
  Forall (fun rt => rt + q <= avail) rts.
Proof.
  unfold records_exceeding_limit.
  induction rts as [|rt rest IH]; cbn; [split; constructor|].
  destruct (avail <? rt + q) eqn:E.
  - split; [discriminate|]. intros H. inversion H; subst.
    apply Z.ltb_lt in E. lia.
  - apply Z.ltb_ge in E. rewrite IH. split.
    + intros H. constructor; assumption.
    + intros H. inversion H; assumption.
Qed.

Lemma max_tokens_fold l m : m <= fold_left Z.max l m.
Proof.
  revert m. induction l as [|x l IH]; cbn; intros m; [lia|].
  specialize (IH (Z.max m x)). lia.
Qed.

Lemma max_tokens_upper l m x : In x l -> x <= fold_left Z.max l m.
Proof.
  revert m. induction l as [|y l IH]; cbn; intros m; [intros []|].
  intros [->|Hin].
  - pose proof (max_tokens_fold l (Z.max m x)). lia.
  - apply IH. exact Hin.
Qed.

Lemma max_tokens_attained l m :
  fold_left Z.max l m = m \/ In (fold_left Z.max l m) l.
Proof.
  revert m. induction l as [|y l IH]; cbn; intros m; [left; reflexivity|].
  destruct (IH (Z.max m y)) as [H|H].
  - rewrite H. destruct (Z.max_spec m y) as [[_ ->]|[_ ->]]; auto.
  - right. right. exact H.
Qed.

(** What a successful call has gone through. *)
Record validated (d : dataframes_dict) (selected_job_name : string)
  (d' : dataframes_dict) (a : context_allocation)
  (tok : tokenizer) (e : Z) : Prop := {
  v_tokenizer :
    exists jt selected_job rest,
      job_table d = Some jt /\
      rows_of_job jt selected_job_name = selected_job :: rest /\
      tokenizer_for (job_Model (settings selected_job)) = Some tok /\
      (exists limit overhead,
         Input_Context_Limit selected_job = Some limit /\
         Input_Context_Overhead selected_job = Some overhead /\
         Available_Context a = limit - overhead);
  v_available : 0 < Available_Context a;
  v_empty : token_len tok "[]" = Some e;
  v_frames : d' = with_frames d (map (marked_frame tok) (frames d));
  v_encoded :
    Forall (fun row => mark tok row = Some (marked tok row))
      (rows_to_mark (frames d));
  v_question :
    Total_Question_Context_Tokens a = question_budget tok (frames d) e;
  v_max :
    Max_Record_Tokens a
    = max_tokens (map (fun row => row_tokens tok row + e)
                    (record_rows (frames d)));
  v_total :
    Total_Records a = Z.of_nat (List.length (record_rows (frames d)));
  v_fit :
    Forall (fun row =>
              row_tokens tok row + e + Total_Question_Context_Tokens a
              <= Available_Context a)
      (record_rows (frames d))
}.

Lemma allocate_context_validated d selected_job_name io_ok d' a :
  allocate_context d selected_job_name io_ok = (d', Some a) ->
  exists tok e, validated d selected_job_name d' a tok e.
Proof.
  unfold allocate_context.
  destruct (job_table d) as [jt|] eqn:Ejt; [|discriminate].
  destruct (rows_of_job jt selected_job_name) as [|sel rest] eqn:Esel;
    [discriminate|].
  destruct (Input_Context_Limit sel) as [limit|] eqn:El; [|discriminate].
  destruct (Input_Context_Overhead sel) as [overhead|] eqn:Eo;
    [|discriminate].
  destruct (limit - overhead <=? 0) eqn:Eav; [discriminate|].
  apply Z.leb_gt in Eav.
  destruct (tokenizer_for (job_Model (settings sel))) as [tok|] eqn:Etok;
    [|discriminate].
  destruct (token_len tok "[]") as [e|] eqn:Ee; [|discriminate].
  destruct (annotate_frames tok (frames d) 0) as [frames' counted] eqn:Ea.
  destruct counted as [q0|]; [|discriminate].
  destruct (annotate_frames_marked _ _ _ _ _ Ea) as (-> & -> & HF).
  rewrite num_question_marked, record_rows_marked, record_tokens_marked.
  set (num := num_question_context_dataframes (frames d)).
  set (qsumv := zsum (map (row_tokens tok) (question_rows (frames d)))).
  assert (Hq : (if 0 <? num then 0 + qsumv + num * e else 0 + qsumv)
               = question_budget tok (frames d) e).
  { unfold question_budget. fold num qsumv.
    destruct (0 <? num) eqn:En; [lia|].
    apply Z.ltb_ge in En.
    assert (num = 0) by (unfold num, num_question_context_dataframes in *;
                         lia).
    lia. }
  rewrite Hq.
  destruct (records_exceeding_limit _ _ _) eqn:Ex; [|discriminate].
  destruct io_ok; [|discriminate].
  intros [= <- <-]. exists tok, e.
  apply exceeding_nil in Ex.
  constructor; cbn; trivial.
  - exists jt, sel, rest. repeat split; trivial.
    exists limit, overhead. repeat split; trivial.
  - rewrite length_map. reflexivity.
  - rewrite Forall_map in Ex. eapply Forall_impl; [|exact Ex].
    cbn. intros row H. lia.
Qed.

(** The job is configured with a positive budget and a tokenizer that
    returns on every text. *)
Definition budget_ready (d : dataframes_dict) (selected_job_name : string)
  (tok : tokenizer) (available_context : Z) : Prop :=
  exists jt selected_job rest limit overhead,
    job_table d = Some jt /\
    rows_of_job jt selected_job_name = selected_job :: rest /\
    Input_Context_Limit selected_job = Some limit /\
    Input_Context_Overhead selected_job = Some overhead /\
    available_context = limit - overhead /\
    0 < available_context /\
    tokenizer_for (job_Model (settings selected_job)) = Some tok /\
    total_tokenizer tok.

Lemma allocate_context_ready d selected_job_name tok avail :
  budget_ready d selected_job_name tok avail ->
  let e := len_of tok "[]" in
  let q := question_budget tok (frames d) e in
  let rts := map (fun row => row_tokens tok row + e) (record_rows (frames d)) in
  allocate_context d selected_job_name true
  = (with_frames d (map (marked_frame tok) (frames d)),
     match records_exceeding_limit rts q avail with
     | _ :: _ => None
     | [] => Some {| Total_Question_Context_Tokens := q;
                     Max_Record_Tokens := max_tokens rts;
                     Available_Context := avail;
                     Total_Records := Z.of_nat (List.length rts) |}
     end).
Proof.
  intros (jt & sel & rest & limit & overhead & Ejt & Esel & El & Eo & ->
          & Hpos & Etok & Ht) e q rts.
  unfold allocate_context. rewrite Ejt, Esel, El, Eo.
  destruct (limit - overhead <=? 0) eqn:Eav;
    [apply Z.leb_le in Eav; lia|].
  rewrite Etok.
  assert (Ee : token_len tok "[]" = Some e).
  { unfold e, len_of, token_len. destruct (tok "[]") eqn:E; [reflexivity|].
    now apply Ht in E. }
  rewrite Ee, (annotate_frames_total _ _ _ Ht).
  rewrite num_question_marked, record_rows_marked, record_tokens_marked.
  fold rts.
  set (num := num_question_context_dataframes (frames d)).
  set (qsumv := zsum (map (row_tokens tok) (question_rows (frames d)))).
  assert (Hq : (if 0 <? num then 0 + qsumv + num * e else 0 + qsumv) = q).
  { unfold q, question_budget. fold num qsumv.
    destruct (0 <? num) eqn:En; [lia|].
    apply Z.ltb_ge in En.
    assert (num = 0) by (unfold num, num_question_context_dataframes in *;
                         lia).
    lia. }
  rewrite Hq. destruct (records_exceeding_limit rts q (limit - overhead));
    reflexivity.
Qed.

(** ** What a passed check guarantees *)

(** When the check passes, every row of every record frame, tokenized
    as the check does it, fits the budget together with the question
    context charged to every request; and the budget is positive. *)
Theorem validated_records_fit d selected_job_name io_ok d' a :
  allocate_context d selected_job_name io_ok = (d', Some a) ->
  0 < Available_Context a /\
  exists jt selected_job rest tok e,
    job_table d = Some jt /\
    rows_of_job jt selected_job_name = selected_job :: rest /\
    tokenizer_for (job_Model (settings selected_job)) = Some tok /\
    token_len tok "[]" = Some e /\
    forall df_name df row,
      In (df_name, df) (frames d) ->
      is_record_name df_name = true ->
      In row df ->
      exists n c,
        token_len tok (to_json row) = Some n /\
        token_len tok "," = Some c /\
        n + c + e + Total_Question_Context_Tokens a <= Available_Context a.
Proof.
  intros H. destruct (allocate_context_validated _ _ _ _ _ H)
    as (tok & e & [Hcfg Hav He _ Henc _ _ _ Hfit]).
  split; [exact Hav|].
  destruct Hcfg as (jt & sel & rest & Ejt & Esel & Etok & _).
  exists jt, sel, rest, tok, e. repeat (split; [assumption|]).
  intros df_name df row Hin Hn Hr.
  pose proof (in_record_rows _ _ _ _ Hin Hn Hr) as Hrow.
  rewrite Forall_forall in Henc, Hfit.
  destruct (mark_marked _ _ _ (Henc _ (record_rows_to_mark _ _ Hrow)))
    as (_ & E1 & E2).
  exists (len_of tok (to_json row)), (len_of tok ",").
  repeat split; trivial. apply (Hfit _ Hrow).
Qed.

(** The figures of a passed check: the question tokens are those of
    every row of every frame named [Question_Context_...] or
    [GPA_Questions...] plus a pair of brackets per such frame with rows;
    the record count is the number of rows of the record frames; the
    largest record bounds every record, is 0 without records, and with
    records the largest request fits the budget. *)
Theorem allocation_figures d selected_job_name io_ok d' a :
  allocate_context d selected_job_name io_ok = (d', Some a) ->
  exists tok e,
    token_len tok "[]" = Some e /\
    Total_Question_Context_Tokens a = question_budget tok (frames d) e /\
    0 <= Total_Question_Context_Tokens a /\
    Total_Records a = Z.of_nat (List.length (record_rows (frames d))) /\
    (forall row, In row (record_rows (frames d)) ->
                 row_tokens tok row + e <= Max_Record_Tokens a) /\
    (record_rows (frames d) = [] -> Max_Record_Tokens a = 0) /\
    (record_rows (frames d) <> [] ->
     Max_Record_Tokens a + Total_Question_Context_Tokens a
     <= Available_Context a).
Proof.
  intros H. destruct (allocate_context_validated _ _ _ _ _ H)
    as (tok & e & [_ _ He _ _ Hq Hmax Htot Hfit]).
  exists tok, e. split; [exact He|]. split; [exact Hq|].
  pose proof (token_len_nonneg _ _ _ He) as He0.
  split.
  { rewrite Hq. unfold question_budget.
    assert (0 <= zsum (map (row_tokens tok) (question_rows (frames d)))).
    { induction (question_rows (frames d)) as [|r l IH];
        [unfold zsum; cbn; lia|].
      cbn [map]. unfold zsum in *. cbn [fold_right].
      pose proof (row_tokens_nonneg tok r). lia. }
    unfold num_question_context_dataframes. nia. }
  split; [exact Htot|]. split.
  { intros row Hin. rewrite Hmax. apply max_tokens_upper.
    apply in_map_iff. exists row. split; trivial. }
  split.
  { intros E. rewrite Hmax, E. reflexivity. }
  intros Hne. rewrite Hmax. unfold max_tokens.
  destruct (max_tokens_attained
              (map (fun row => row_tokens tok row + e)
                 (record_rows (frames d))) 0) as [E|Hin].
  - rewrite E. destruct (record_rows (frames d)) as [|r l] eqn:Er;
      [congruence|].
    rewrite Forall_forall in Hfit. specialize (Hfit r (or_introl eq_refl)).
    pose proof (row_tokens_nonneg tok r). lia.
  - apply in_map_iff in Hin as (row & <- & Hin).
    rewrite Forall_forall in Hfit. apply (Hfit _ Hin).
Qed.

(** ** What the check leaves in the dictionary *)

(** A passed check has given every row of every record and question
    frame the JSON text of the row as it was and its token count; it has
    changed no other column, no other frame, and neither table. *)
Theorem allocation_marks_context_rows d selected_job_name io_ok d' a :
  allocate_context d selected_job_name io_ok = (d', Some a) ->
  job_table d' = job_table d /\
  questions_table d' = questions_table d /\
  map fst (frames d') = map fst (frames d) /\
  exists tok,
    Forall2 (fun f f' =>
               if is_record_name (fst f) || is_question_name (fst f)
               then Forall2 (fun row row' =>
                               row_columns row' = row_columns row /\
                               row_source_file row' = row_source_file row /\
                               row_json row' = Some (to_json row) /\
                               exists n c,
                                 token_len tok (to_json row) = Some n /\
                                 token_len tok "," = Some c /\
                                 row_token_count row' = Some (n + c))
                      (snd f) (snd f')
               else snd f' = snd f)
      (frames d) (frames d').
Proof.
  intros H. destruct (allocate_context_validated _ _ _ _ _ H)
    as (tok & e & [_ _ _ -> Henc _ _ _ _]).
  cbn. split; [reflexivity|]. split; [reflexivity|]. split.
  { rewrite map_map. apply map_ext. intros [n df]. unfold marked_frame.
    cbn. destruct (is_record_name n || is_question_name n); reflexivity. }
  exists tok. clear H. revert Henc.
  induction (frames d) as [|[n df] l IH]; intros Henc; [constructor|].
  rewrite rows_to_mark_cons in Henc. apply Forall_app in Henc as [H1 H2].
  cbn [map]. constructor; [|apply IH; exact H2].
  unfold marked_frame. cbn [fst snd].
  destruct (is_record_name n || is_question_name n); cbn [fst snd];
    [|reflexivity].
  clear -H1. induction df as [|row df IH]; [constructor|].
  inversion H1 as [|? ? Hrow Hrest]; subst. cbn [map].
  constructor; [|apply IH; exact Hrest].
  destruct (mark_marked _ _ _ Hrow) as (_ & E1 & E2).
  cbn. repeat split; trivial.
  exists (len_of tok (to_json row)), (len_of tok ","). repeat split; trivial.
Qed.

(** ** When the check rejects *)

(** With the job configured, a positive budget, a tokenizer that
    returns and a writable [testing] folder, the check fails exactly
    when some record, with the question context, exceeds the budget. *)
Theorem rejection_means_a_record_exceeds d selected_job_name tok avail :
  budget_ready d selected_job_name tok avail ->
  snd (allocate_context d selected_job_name true) = None <->
  exists row,
    In row (record_rows (frames d)) /\
    avail < row_tokens tok row + len_of tok "[]"
            + question_budget tok (frames d) (len_of tok "[]").
Proof.
  intros Hr. rewrite (allocate_context_ready _ _ _ _ Hr). cbn [snd].
  set (e := len_of tok "[]"). set (q := question_budget tok (frames d) e).
  destruct (records_exceeding_limit _ q avail) as [|rt l] eqn:Ex.
  - split; [discriminate|]. intros (row & Hin & Hlt).
    apply exceeding_nil in Ex. rewrite Forall_map, Forall_forall in Ex.
    specialize (Ex _ Hin). cbn in Ex. lia.
  - split; [intros _|reflexivity].
    assert (Hin : In rt (records_exceeding_limit
                           (map (fun row => row_tokens tok row + e)
                              (record_rows (frames d))) q avail))
      by (rewrite Ex; left; reflexivity).
    unfold records_exceeding_limit in Hin.
    apply filter_In in Hin as [Hin Hlt].
    apply in_map_iff in Hin as (row & <- & Hin).
    exists row. split; [exact Hin|]. apply Z.ltb_lt in Hlt. lia.
Qed.

(** Without a single record row the check passes whatever the question
    context takes, even more than the whole budget. *)
Theorem no_records_always_validates d selected_job_name tok avail :
  budget_ready d selected_job_name tok avail ->
  record_rows (frames d) = [] ->
  snd (allocate_context d selected_job_name true)
  = Some {| Total_Question_Context_Tokens :=
              question_budget tok (frames d) (len_of tok "[]");
            Max_Record_Tokens := 0;
            Available_Context := avail;
            Total_Records := 0 |}.
Proof.
  intros Hr E. rewrite (allocate_context_ready _ _ _ _ Hr). cbn [snd].
  rewrite E. reflexivity.
Qed.

(** ** The other ways to fail *)

(** The result is empty, whatever the records take, when the budget is
    not positive, when the tokenizer cannot be had, when it raises on
    some row of a record or question frame, or when the [testing]
    folder cannot be written. *)
Theorem check_fails_without_exceeding_record d selected_job_name io_ok :
  (forall jt selected_job rest limit overhead,
     job_table d = Some jt ->
     rows_of_job jt selected_job_name = selected_job :: rest ->
     Input_Context_Limit selected_job = Some limit ->
     Input_Context_Overhead selected_job = Some overhead ->
     limit <= overhead ->
     allocate_context d selected_job_name io_ok = (d, None)) /\
  (forall jt selected_job rest,
     job_table d = Some jt ->
     rows_of_job jt selected_job_name = selected_job :: rest ->
     tokenizer_for (job_Model (settings selected_job)) = None ->
     allocate_context d selected_job_name io_ok = (d, None)) /\
  (forall jt selected_job rest tok row,
     job_table d = Some jt ->
     rows_of_job jt selected_job_name = selected_job :: rest ->
     tokenizer_for (job_Model (settings selected_job)) = Some tok ->
     In row (rows_to_mark (frames d)) ->
     tok (to_json row) = None ->
     snd (allocate_context d selected_job_name io_ok) = None) /\
  snd (allocate_context d selected_job_name false) = None.
Proof.
  split; [|split; [|split]].
  - intros jt sel rest limit overhead Ejt Esel El Eo Hle.
    unfold allocate_context. rewrite Ejt, Esel, El, Eo.
    destruct (limit - overhead <=? 0) eqn:E; [reflexivity|].
    apply Z.leb_gt in E. lia.
  - intros jt sel rest Ejt Esel Etok.
    unfold allocate_context. rewrite Ejt, Esel, Etok.
    destruct (Input_Context_Limit sel); [|reflexivity].
    destruct (Input_Context_Overhead sel); [|reflexivity].
    destruct (_ <=? 0); reflexivity.
  - intros jt sel rest tok row Ejt Esel Etok Hin Hraise.
    destruct (allocate_context d selected_job_name io_ok) as [d' [a|]] eqn:E;
      [|reflexivity].
    exfalso.
    destruct (allocate_context_validated _ _ _ _ _ E)
      as (tok' & e & [Hcfg _ _ _ Henc _ _ _ _]).
    destruct Hcfg as (jt' & sel' & rest' & Ejt' & Esel' & Etok' & _).
    rewrite Ejt in Ejt'. injection Ejt' as <-.
    rewrite Esel in Esel'. injection Esel' as <- <-.
    rewrite Etok in Etok'. injection Etok' as <-.
    rewrite Forall_forall in Henc.
    destruct (mark_marked _ _ _ (Henc _ Hin)) as (_ & E1 & _).
    unfold token_len in E1. rewrite Hraise in E1. discriminate.
  - destruct (allocate_context d selected_job_name false) as [d' [a|]] eqn:E;
      [|reflexivity].
    exfalso. revert E. unfold allocate_context.
    repeat match goal with
           | |- context [match ?x with _ => _ end] =>
               destruct x; try discriminate
           end.
Qed.

(** ** The batches built *)

(** What ties a batch to the record row it was built from. *)
Definition built_from (ctx : list json) (rf : json) (sr : string)
  (row : context_row) (b : built_batch) : Prop :=
  row_json row = Some (record_json (batch b)) /\
  record_data b = row_columns row /\
  source_file (batch b)
  = match row_source_file row with Some f => f | None => "unknown" end /\
  question_context (batch b) = ctx /\
  response_format (batch b) = rf /\
  system_role (batch b) = sr.

Definition batch_ids (bs : list built_batch) : list Z :=
  map (fun b => batch_id (batch b)) bs.

(** [k], [k + 1], ... *)
Definition ids_from (k : Z) (n : nat) : list Z :=
  map (fun i => k + Z.of_nat i) (seq 0 n).

Arguments ids_from : simpl never.

Lemma ids_from_S k n : ids_from k (S n) = k :: ids_from (k + 1) n.
Proof.
  unfold ids_from. cbn [seq map]. f_equal; [lia|].
  rewrite <- seq_shift, map_map. apply map_ext. intros i. lia.
Qed.

Lemma ids_from_NoDup k n : NoDup (ids_from k n).
Proof.
  unfold ids_from. apply Finite.Injective_map_NoDup; [|apply seq_NoDup].
  intros i j H. lia.
Qed.

Lemma concat_record_dfs d :
  List.concat (record_context_dfs d) = record_rows (frames d).
Proof.
  unfold record_context_dfs, record_rows.
  induction (frames d) as [|[n df] l IH]; [reflexivity|].
  cbn [filter flat_map fst snd]. destruct (is_record_name n); cbn.
  - rewrite IH. reflexivity.
  - exact IH.
Qed.

Lemma batch_rows_some rows k ctx rf sr bs :
  batch_rows rows k ctx rf sr = Some bs ->
  Forall2 (built_from ctx rf sr) rows bs /\
  batch_ids bs = ids_from k (List.length rows).
Proof.
  revert k bs. induction rows as [|row rest IH]; cbn; intros k bs.
  - intros [= <-]. split; [constructor | reflexivity].
  - destruct (row_json row) as [j|] eqn:Ej; [|discriminate].
    destruct (batch_rows rest (k + 1) ctx rf sr) as [l|] eqn:El;
      [|discriminate].
    intros [= <-]. destruct (IH _ _ El) as [HF Hid]. split.
    + constructor; [|exact HF]. unfold built_from. cbn. repeat split.
      exact Ej.
    + rewrite ids_from_S. unfold batch_ids in *. cbn. f_equal. exact Hid.
Qed.

Lemma batch_rows_none rows k ctx rf sr :
  batch_rows rows k ctx rf sr = None <->
  Exists (fun row => row_json row = None) rows.
Proof.
  revert k. induction rows as [|row rest IH]; cbn; intros k.
  - split; [discriminate|]. intros H. inversion H.
  - destruct (row_json row) as [j|] eqn:Ej.
    + destruct (batch_rows rest (k + 1) ctx rf sr) as [l|] eqn:El.
      * split; [discriminate|]. intros H.
        inversion H as [? ? H1|? ? H1]; subst; [congruence|].
        apply (IH (k + 1)) in H1. congruence.
      * split; [intros _|reflexivity].
        apply Exists_cons_tl. apply (IH (k + 1)). exact El.
    + split; [intros _|reflexivity]. apply Exists_cons_hd. exact Ej.
Qed.

Lemma batch_rows_total rows k ctx rf sr :
  Forall (fun row => row_json row <> None) rows ->
  exists bs, batch_rows rows k ctx rf sr = Some bs.
Proof.
  intros H. destruct (batch_rows rows k ctx rf sr) as [bs|] eqn:E;
    [exists bs; reflexivity|].
  exfalso. apply batch_rows_none in E.
  apply Exists_exists in E as (row & Hin & Hnone).
  rewrite Forall_forall in H. apply (H _ Hin Hnone).
Qed.

Lemma record_dfs_nil d :
  record_context_dfs d = [] -> record_rows (frames d) = [].
Proof. intros H. rewrite <- concat_record_dfs, H. reflexivity. Qed.

(** The text [build_batches] stores as [system_role]. *)
Definition system_role_of (selected_job : job_row) : string :=
  json_dumps (JObj [("role", JStr "system");
                    ("content", JStr (Assistant_Role selected_job))]).

(** [build_batches], read from its inputs, for a configured job. *)
Lemma build_batches_configured d selected_job_name jt selected_job rest :
  job_table d = Some jt ->
  rows_of_job jt selected_job_name = selected_job :: rest ->
  build_batches d selected_job_name
  = match record_context_dfs d with
    | [] => ([], Some NoRecordFrames)
    | _ :: _ =>
        match batch_rows (record_rows (frames d)) 0 (all_question_context d)
                (create_response_format d selected_job_name)
                (system_role_of selected_job) with
        | Some rows => (rows, None)
        | None => ([], Some BuilderRaised)
        end
    end.
Proof.
  intros Ejt Esel. unfold build_batches. rewrite Ejt, Esel.
  rewrite <- concat_record_dfs.
  destruct (record_context_dfs d); reflexivity.
Qed.

(** One batch for each row of the record frames, in the order of the
    frames and their rows, numbered from 0 without gap, so no two
    batches share their id; each carries the row's [json] text, its
    columns and its file name. *)
Theorem one_batch_per_record d selected_job_name jt selected_job rest :
  job_table d = Some jt ->
  rows_of_job jt selected_job_name = selected_job :: rest ->
  record_context_dfs d <> [] ->
  Forall (fun row => row_json row <> None) (record_rows (frames d)) ->
  exists bs,
    build_batches d selected_job_name = (bs, None) /\
    Forall2 (built_from (all_question_context d)
               (create_response_format d selected_job_name)
               (system_role_of selected_job))
      (record_rows (frames d)) bs /\
    List.length bs = List.length (record_rows (frames d)) /\
    batch_ids bs = map Z.of_nat (seq 0 (List.length bs)) /\
    NoDup (batch_ids bs).
Proof.
  intros Ejt Esel Hdfs Hjson.
  rewrite (build_batches_configured _ _ _ _ _ Ejt Esel).
  destruct (record_context_dfs d) as [|df dfs]; [congruence|].
  destruct (batch_rows_total _ 0 (all_question_context d)
              (create_response_format d selected_job_name)
              (system_role_of selected_job) Hjson) as (bs & Eb).
  rewrite Eb. destruct (batch_rows_some _ _ _ _ _ _ Eb) as [HF Hid].
  exists bs. split; [reflexivity|]. split; [exact HF|].
  pose proof (Forall2_length HF) as Hlen.
  split; [symmetry; exact Hlen|]. split.
  - rewrite Hid, <- Hlen. unfold ids_from. apply map_ext. intros i. lia.
  - rewrite Hid. apply ids_from_NoDup.
Qed.

(** The frame returned is empty, and [main] stops with status 1, in
    these cases and no other: the job table or the job's row is
    missing, the record frames have no row at all, or one row of a
    record frame has no [json] column, which discards every batch. *)
Theorem no_batches_exactly_when d selected_job_name :
  fst (build_batches d selected_job_name) = [] <->
  job_table d = None \/
  (exists jt, job_table d = Some jt /\ rows_of_job jt selected_job_name = []) \/
  record_rows (frames d) = [] \/
  Exists (fun row => row_json row = None) (record_rows (frames d)).
Proof.
  destruct (job_table d) as [jt|] eqn:Ejt.
  2:{ unfold build_batches. rewrite Ejt. cbn. split; auto. }
  destruct (rows_of_job jt selected_job_name) as [|sel rest] eqn:Esel.
  { unfold build_batches. rewrite Ejt, Esel. cbn. split; [|reflexivity].
    intros _. right. left. exists jt. split; trivial. }
  rewrite (build_batches_configured _ _ _ _ _ Ejt Esel).
  destruct (record_context_dfs d) as [|df dfs] eqn:Edfs.
  { cbn. split; [|reflexivity]. intros _. right. right. left.
    apply record_dfs_nil. exact Edfs. }
  destruct (batch_rows _ _ _ _ _) as [bs|] eqn:Eb; cbn [fst].
  - destruct (batch_rows_some _ _ _ _ _ _ Eb) as [HF _].
    pose proof (Forall2_length HF) as Hlen. split.
    + intros ->. right. right. left.
      destruct (record_rows (frames d)); [reflexivity|discriminate].
    + intros [H|[(jt' & H & H')|[H|H]]].
      * discriminate.
      * injection H as <-. congruence.
      * rewrite H in Hlen. destruct bs; [reflexivity|discriminate].
      * apply (batch_rows_none _ 0 (all_question_context d)
                 (create_response_format d selected_job_name)
                 (system_role_of sel)) in H.
        congruence.
  - split; [intros _|reflexivity]. right. right. right.
    eapply batch_rows_none. exact Eb.
Qed.

Lemma all_question_context_marked d tok :
  all_question_context (with_frames d (map (marked_frame tok) (frames d)))
  = all_question_context d.
Proof.
  unfold all_question_context. cbn [frames with_frames].
  induction (frames d) as [|[n df] l IH]; [reflexivity|].
  cbn [map flat_map]. rewrite IH. f_equal.
  unfold marked_frame. cbn [fst snd].
  destruct (is_record_name n || is_question_name n); cbn [fst snd];
    [|reflexivity].
  rewrite df_empty_map, map_map. reflexivity.
Qed.

Lemma record_dfs_marked d tok :
  record_context_dfs (with_frames d (map (marked_frame tok) (frames d))) = []
  <-> record_context_dfs d = [].
Proof.
  unfold record_context_dfs. cbn [frames with_frames].
  induction (frames d) as [|[n df] l IH]; [reflexivity|].
  cbn [map filter]. unfold marked_frame at 1. cbn [fst snd].
  destruct (is_record_name n) eqn:En; cbn [orb fst snd]; rewrite ?En.
  - cbn. split; discriminate.
  - destruct (is_question_name n); cbn [fst]; rewrite En; exact IH.
Qed.

(** ** From the check to the batches *)

(** After a passed check over frames that hold a record row, the
    builder cannot fail on the dictionary the check leaves: it returns
    as many batches as the check counted records, and the batch of a
    row carries the JSON text the check tokenized for it. The question
    context of the batches is that of the frames before the check. *)
Theorem checked_frames_build d selected_job_name io_ok d' a :
  allocate_context d selected_job_name io_ok = (d', Some a) ->
  record_rows (frames d) <> [] ->
  exists bs,
    build_batches d' selected_job_name = (bs, None) /\
    bs <> [] /\
    Z.of_nat (List.length bs) = Total_Records a /\
    batch_ids bs = map Z.of_nat (seq 0 (List.length bs)) /\
    Forall2 (fun row b =>
               record_json (batch b) = to_json row /\
               record_data b = row_columns row /\
               question_context (batch b) = all_question_context d)
      (record_rows (frames d)) bs.
Proof.
  intros H Hne. destruct (allocate_context_validated _ _ _ _ _ H)
    as (tok & e & [Hcfg _ _ -> _ _ _ Htot _]).
  destruct Hcfg as (jt & sel & rest & Ejt & Esel & _).
  set (d' := with_frames d (map (marked_frame tok) (frames d))).
  assert (Hrows : record_rows (frames d')
                  = map (marked tok) (record_rows (frames d)))
    by apply record_rows_marked.
  assert (Ejt' : job_table d' = Some jt) by exact Ejt.
  rewrite (build_batches_configured _ _ _ _ _ Ejt' Esel).
  destruct (record_context_dfs d') as [|df dfs] eqn:Edfs.
  { apply record_dfs_marked in Edfs. apply record_dfs_nil in Edfs.
    congruence. }
  destruct (batch_rows_total (record_rows (frames d')) 0
              (all_question_context d')
              (create_response_format d' selected_job_name)
              (system_role_of sel)) as (bs & Eb).
  { rewrite Hrows, Forall_map. apply Forall_forall. intros row _.
    cbn. discriminate. }
  rewrite Eb. destruct (batch_rows_some _ _ _ _ _ _ Eb) as [HF Hid0].
  pose proof (Forall2_length HF) as Hlen. symmetry in Hlen.
  assert (Hid : batch_ids bs = map Z.of_nat (seq 0 (List.length bs))).
  { rewrite Hid0, <- Hlen. unfold ids_from. apply map_ext. intros i. lia. }
  exists bs. split; [reflexivity|].
  rewrite Hrows, length_map in Hlen. split.
  { intros ->. destruct (record_rows (frames d)); [congruence|discriminate]. }
  split; [rewrite Htot, Hlen; reflexivity|]. split; [exact Hid|].
  rewrite Hrows in HF. clear -HF.
  unfold d' in HF. rewrite all_question_context_marked in HF.
  revert bs HF. induction (record_rows (frames d)) as [|row rows IH];
    intros bs HF; inversion HF as [|? b ? bs' Hb Hrest]; subst;
    constructor; [|apply IH; exact Hrest].
  destruct Hb as (Hj & Hd & _ & Hq & _). cbn in Hj, Hd.
  injection Hj as Hj. repeat split; auto.
Qed.

(** A passed check does not mean there is work: over frames without a
    record row it passes and the builder returns the empty frame. *)
Theorem checked_without_records_builds_nothing d selected_job_name io_ok d' a :
  allocate_context d selected_job_name io_ok = (d', Some a) ->
  record_rows (frames d) = [] ->
  Total_Records a = 0 /\
  fst (build_batches d' selected_job_name) = [].
Proof.
  intros H E. destruct (allocate_context_validated _ _ _ _ _ H)
    as (tok & e & [_ _ _ -> _ _ _ Htot _]).
  split; [rewrite Htot, E; reflexivity|].
  unfold build_batches. cbn [job_table with_frames].
  destruct (job_table d) as [jt|]; [|reflexivity].
  destruct (rows_of_job jt selected_job_name) as [|sel rest]; [reflexivity|].
  match goal with
  | |- context [record_context_dfs ?x] =>
      pose proof (concat_record_dfs x) as Hc;
      destruct (record_context_dfs x) as [|df dfs]; [reflexivity|]
  end.
  rewrite Hc. cbn [frames with_frames]. rewrite record_rows_marked, E.
  reflexivity.
Qed.

Lemma built_from_in ctx rf sr rows bs b :
  Forall2 (built_from ctx rf sr) rows bs -> In b bs ->
  exists row, In row rows /\ built_from ctx rf sr row b.
Proof.
  induction 1 as [|row b' rows bs Hb HF IH]; intros Hin; [destruct Hin|].
  destruct Hin as [->|Hin].
  - exists row. split; [left; reflexivity | exact Hb].
  - destruct (IH Hin) as (row' & Hr & Hb'). exists row'. split; auto.
    right. exact Hr.
Qed.

Lemma build_batches_in d selected_job_name jt selected_job rest b :
  job_table d = Some jt ->
  rows_of_job jt selected_job_name = selected_job :: rest ->
  In b (fst (build_batches d selected_job_name)) ->
  exists row,
    In row (record_rows (frames d)) /\
    built_from (all_question_context d)
      (create_response_format d selected_job_name)
      (system_role_of selected_job) row b.
Proof.
  intros Ejt Esel. rewrite (build_batches_configured _ _ _ _ _ Ejt Esel).
  destruct (record_context_dfs d); [intros []|].
  destruct (batch_rows _ _ _ _ _) as [bs|] eqn:Eb; [|intros []].
  cbn [fst]. destruct (batch_rows_some _ _ _ _ _ _ Eb) as [HF _].
  apply built_from_in. exact HF.
Qed.

(** ** From the batches to the request *)

(** When [json.loads] gives back the object that [json.dumps] was given
    for the system role, the request of every batch opens with the
    job's [Assistant_Role] as developer message, followed by the fixed
    user line and the row's JSON text in brackets, and ends with the two
    messages of the question context exactly when a question frame has
    a row. *)
Theorem developer_message_is_assistant_role
  d selected_job_name jt selected_job rest b :
  job_table d = Some jt ->
  rows_of_job jt selected_job_name = selected_job :: rest ->
  In b (fst (build_batches d selected_job_name)) ->
  json_loads (system_role_of selected_job)
  = Some (JObj [("role", JStr "system");
                ("content", JStr (Assistant_Role selected_job))]) ->
  build_messages json_loads json_dumps (batch b)
  = Some (base_messages (JStr (Assistant_Role selected_job)) (batch b)
          ++ match all_question_context d with
             | [] => []
             | _ :: _ => context_messages json_dumps (batch b)
             end) /\
  exists row,
    In row (record_rows (frames d)) /\
    row_json row = Some (record_json (batch b)).
Proof.
  intros Ejt Esel Hin Hround.
  destruct (build_batches_in _ _ _ _ _ _ Ejt Esel Hin)
    as (row & Hrow & Hj & _ & _ & Hq & _ & Hs).
  split; [|exists row; split; assumption].
  unfold build_messages. rewrite Hs, Hround. cbn [dict_get].
  cbn. rewrite Hq.
  destruct (all_question_context d); reflexivity.
Qed.

(** ** The response format *)

(** [j[k1][k2]...] on nested objects. *)
Fixpoint json_path (j : json) (path : list string) : option json :=
  match path with
  | [] => Some j
  | k :: rest =>
      match j with
      | JObj kv =>
          match dict_get kv k with
          | Some j' => json_path j' rest
          | None => None
          end
      | _ => None
      end
  end.

(** Where the schema of one result sits in the response format. *)
Definition items_path : list string :=
  ["json_schema"; "schema"; "properties"; "results"; "items"].

Lemma dict_keys_set_In d k v k' :
  In k' (dict_keys (dict_set d k v)) <-> k' = k \/ In k' (dict_keys d).
Proof.
  clear json_loads json_dumps to_json encoding_for_model
    get_encoding_o200k_base.
  unfold dict_keys. induction d as [|[k0 v0] d IH]; cbn.
  - intuition.
  - destruct (String.eqb k k0) eqn:E; cbn.
    + apply String.eqb_eq in E. subst k0. intuition.
    + rewrite IH. intuition.
Qed.

Lemma dict_set_NoDup d k v :
  NoDup (dict_keys d) -> NoDup (dict_keys (dict_set d k v)).
Proof.
  clear json_loads json_dumps to_json encoding_for_model
    get_encoding_o200k_base.
  unfold dict_keys. induction d as [|[k0 v0] d IH]; cbn; intros H.
  - constructor; [intros []|constructor].
  - inversion H as [|? ? Hnin Hnd]; subst.
    destruct (String.eqb k k0) eqn:E; cbn.
    + constructor; assumption.
    + constructor; [|apply IH; exact Hnd].
      intros Hin. apply (dict_keys_set_In d k v k0) in Hin.
      destruct Hin as [->|Hin]; [|contradiction].
      rewrite String.eqb_refl in E. discriminate.
Qed.

Lemma properties_fold l qs acc :
  let properties :=
    fold_left (fun properties q =>
                 dict_set properties (Key q) (question_property l q))
      qs acc in
  (NoDup (dict_keys acc) -> NoDup (dict_keys properties)) /\
  (forall k, In k (dict_keys properties)
             <-> In k (dict_keys acc) \/ In k (map Key qs)) /\
  (forall k, ~ In k (map Key qs) -> dict_get properties k = dict_get acc k).
Proof.
  clear json_loads json_dumps to_json encoding_for_model
    get_encoding_o200k_base.
  revert acc. induction qs as [|q qs IH]; intros acc; cbn.
  - repeat split; auto. intros [H|[]]. exact H.
  - destruct (IH (dict_set acc (Key q) (question_property l q)))
      as (H1 & H2 & H3).
    split; [|split].
    + intros Hnd. apply H1. apply dict_set_NoDup. exact Hnd.
    + intros k. rewrite H2, dict_keys_set_In. intuition.
    + intros k Hk. rewrite H3 by tauto.
      apply dict_get_set_other. intros E. apply Hk. left. exact E.
Qed.

Lemma properties_last_wins l qs1 q qs2 :
  ~ In (Key q) (map Key qs2) ->
  dict_get (properties_of l (qs1 ++ q :: qs2)) (Key q)
  = Some (question_property l q).
Proof.
  clear json_loads json_dumps to_json encoding_for_model
    get_encoding_o200k_base.
  intros Hnin. unfold properties_of. rewrite fold_left_app. cbn [fold_left].
  destruct (properties_fold l qs2
              (dict_set (fold_left
                           (fun properties q0 =>
                              dict_set properties (Key q0)
                                (question_property l q0)) qs1 [])
                 (Key q) (question_property l q)))
    as (_ & _ & H3).
  rewrite (H3 _ Hnin). apply dict_get_set.
Qed.

(** For a configured job with its questions table: the schema of one
    result requires exactly the keys it declares, each once; the keys
    are those of the job's questions; when two questions of the job
    share a key, the later one defines the property. *)
Theorem every_property_is_required
  d selected_job_name jt selected_job rest qs :
  job_table d = Some jt ->
  rows_of_job jt selected_job_name = selected_job :: rest ->
  questions_table d = Some qs ->
  exists properties,
    json_path (create_response_format d selected_job_name)
      (items_path ++ ["properties"])
    = Some (JObj properties) /\
    json_path (create_response_format d selected_job_name)
      (items_path ++ ["required"])
    = Some (JArr (map JStr (dict_keys properties))) /\
    NoDup (dict_keys properties) /\
    (forall k, In k (dict_keys properties) <->
               exists q, In q qs /\ q_Job_Name q = selected_job_name /\
                         Key q = k) /\
    (forall qs1 q qs2,
       questions_of_job qs selected_job_name = qs1 ++ q :: qs2 ->
       ~ In (Key q) (map Key qs2) ->
       dict_get properties (Key q)
       = Some (question_property (frames d) q)).
Proof.
  clear json_loads json_dumps to_json encoding_for_model
    get_encoding_o200k_base.
  intros Ejt Esel Eqs.
  exists (properties_of (frames d) (questions_of_job qs selected_job_name)).
  unfold create_response_format. rewrite Ejt, Esel, Eqs.
  split; [reflexivity|]. split; [reflexivity|].
  destruct (properties_fold (frames d)
              (questions_of_job qs selected_job_name) [])
    as (H1 & H2 & _).
  split; [apply H1; constructor|]. split.
  - intros k. unfold properties_of. rewrite H2. cbn. split.
    + intros [[]|Hin]. apply in_map_iff in Hin as (q & <- & Hq).
      unfold questions_of_job in Hq. apply filter_In in Hq as [Hq Hn].
      apply String.eqb_eq in Hn. exists q. repeat split; trivial.
    + intros (q & Hq & Hn & <-). right. apply in_map. unfold questions_of_job.
      apply filter_In. split; [exact Hq|]. apply String.eqb_eq. exact Hn.
  - intros qs1 q qs2 E Hnin. rewrite E.
    apply properties_last_wins. exact Hnin.
Qed.

(** Without the [GPA_Questions] table the response format is the empty
    dict; the builder goes on all the same, and every batch carries
    that empty format, which the processor names [unknown] in its
    debug information. *)
Theorem missing_questions_table_still_builds
  d selected_job_name jt selected_job rest :
  job_table d = Some jt ->
  rows_of_job jt selected_job_name = selected_job :: rest ->
  questions_table d = None ->
  record_rows (frames d) <> [] ->
  Forall (fun row => row_json row <> None) (record_rows (frames d)) ->
  exists bs,
    build_batches d selected_job_name = (bs, None) /\
    List.length bs = List.length (record_rows (frames d)) /\
    Forall (fun b =>
              response_format (batch b) = JObj [] /\
              response_format_name (response_format (batch b))
              = Some (JStr "unknown")) bs.
Proof.
  intros Ejt Esel Eqs Hne Hjson.
  rewrite (build_batches_configured _ _ _ _ _ Ejt Esel).
  destruct (record_context_dfs d) as [|df dfs] eqn:Edfs.
  { apply record_dfs_nil in Edfs. congruence. }
  destruct (batch_rows_total _ 0 (all_question_context d)
              (create_response_format d selected_job_name)
              (system_role_of selected_job) Hjson) as (bs & Eb).
  rewrite Eb. destruct (batch_rows_some _ _ _ _ _ _ Eb) as [HF _].
  exists bs. split; [reflexivity|].
  split; [symmetry; apply (Forall2_length HF)|].
  apply Forall_forall. intros b Hin.
  destruct (built_from_in _ _ _ _ _ _ HF Hin)
    as (row & _ & _ & _ & _ & _ & Hrf & _).
  rewrite Hrf. unfold create_response_format. rewrite Ejt, Esel, Eqs.
  split; reflexivity.
Qed.

(** ** The values of an enum *)

Lemma unique_cells_In l x : In x (unique_cells l) -> In x l.
Proof.
  clear json_loads json_dumps to_json encoding_for_model
    get_encoding_o200k_base.
  revert x. induction l as [|y l IH]; cbn; intros x; [tauto|].
  intros [H|H]; [left; exact H|].
  apply filter_In in H as [H _]. right. apply IH. exact H.
Qed.

Lemma unique_cells_distinct l :
  ForallOrdPairs (fun a b => cell_eqb a b = false) (unique_cells l).
Proof.
  induction l as [|x l IH]; cbn; [constructor|].
  constructor.
  - apply Forall_forall. intros y Hy. apply filter_In in Hy as [_ Hy].
    apply Bool.negb_true_iff in Hy. exact Hy.
  - clear -IH. induction IH as [|a l0 Ha Hl IHl]; cbn; [constructor|].
    destruct (negb (cell_eqb x a)); [|exact IHl].
    constructor; [|exact IHl].
    apply Forall_forall. intros y Hy. apply filter_In in Hy as [Hy _].
    rewrite Forall_forall in Ha. apply Ha. exact Hy.
Qed.

Lemma find_enum_frame_found c l df :
  find_enum_frame c l = Some (Some df) ->
  exists s df_name row,
    c = FileName s /\
    In (df_name, df) l /\
    String.prefix "Question_Context_" df_name = true /\
    In row df /\ row_source_file row = Some s.
Proof.
  clear json_loads json_dumps to_json encoding_for_model
    get_encoding_o200k_base.
  induction l as [|[n df0] l IH]; cbn; [discriminate|].
  destruct (String.prefix "Question_Context_" n) eqn:Ep.
  - destruct (source_files df0) as [fs|] eqn:Ef; [|discriminate].
    destruct (existsb (names_file c) fs) eqn:Ex.
    + intros [= <-]. apply existsb_exists in Ex as (f & Hf & Hn).
      destruct c as [| |s]; try discriminate. cbn in Hn.
      apply String.eqb_eq in Hn. subst f.
      exists s, n.
      assert (Hrow : exists row, In row df0 /\ row_source_file row = Some s).
      { clear -Ef Hf. revert fs Ef Hf.
        induction df0 as [|row df0 IH]; cbn; intros fs.
        - intros [= <-] [].
        - destruct (row_source_file row) as [f|] eqn:Er; [|discriminate].
          destruct (source_files df0) as [fs0|]; [|discriminate].
          intros [= <-] [->|Hin].
          + exists row. split; [left; reflexivity | exact Er].
          + destruct (IH _ eq_refl Hin) as (row' & H1 & H2).
            exists row'. split; [right; exact H1 | exact H2]. }
      destruct Hrow as (row & H1 & H2). exists row.
      repeat split; trivial. left. reflexivity.
    + intros H. destruct (IH H) as (s & n' & row & H1 & H2 & H3).
      exists s, n', row. repeat split; tauto.
  - intros H. destruct (IH H) as (s & n' & row & H1 & H2 & H3).
    exists s, n', row. repeat split; tauto.
Qed.

(** The values offered for an enum are either none at all, or the
    different values of the first column of a question frame loaded
    from the named file, each once, in the order of the column, with
    ["No Match"] added at the end whether or not the column holds it
    already. An empty [enum_file_name] cell finds no frame. *)
Theorem enum_values_of_a_file c l :
  (get_enum_values c l = [] \/
   exists s df_name df cells,
     c = FileName s /\
     In (df_name, df) l /\
     String.prefix "Question_Context_" df_name = true /\
     (exists row, In row df /\ row_source_file row = Some s) /\
     first_column df = Some cells /\
     get_enum_values c l = unique_cells cells ++ [JStr "No Match"] /\
     (forall v, In v (unique_cells cells) -> In v cells) /\
     ForallOrdPairs (fun a b => cell_eqb a b = false) (unique_cells cells)) /\
  get_enum_values EmptyCell l = [] /\
  get_enum_values NoEnumColumn l = [].
Proof.
  clear json_loads json_dumps to_json encoding_for_model
    get_encoding_o200k_base.
  split; [|split].
  - unfold get_enum_values.
    destruct (find_enum_frame c l) as [[df|]|] eqn:Ef; [|left; reflexivity..].
    destruct (first_column df) as [cells|] eqn:Ec; [|left; reflexivity].
    destruct (forallb hashable cells); [|left; reflexivity].
    right. destruct (find_enum_frame_found _ _ _ Ef)
      as (s & n & row & -> & Hin & Hp & Hrow & Hs).
    exists s, n, df, cells. repeat split; trivial.
    + exists row. split; assumption.
    + apply unique_cells_In.
    + apply unique_cells_distinct.
  - unfold get_enum_values.
    destruct (find_enum_frame EmptyCell l) as [[df|]|] eqn:Ef; trivial.
    destruct (find_enum_frame_found _ _ _ Ef) as (s & _ & _ & H & _).
    discriminate.
  - unfold get_enum_values.
    destruct (find_enum_frame NoEnumColumn l) as [[df|]|] eqn:Ef; trivial.
    destruct (find_enum_frame_found _ _ _ Ef) as (s & _ & _ & H & _).
    discriminate.
Qed.

End Stages.

(** * The logger ([unified_logger.py])

    One logger instance: what it has printed, its session file and the
    shared [errors.csv]. *)

(** A line on the console: a log entry, or the warning that the session
    file or [errors.csv] could not be written (the text of the exception
    is left out). *)
Inductive console_line :=
| Entry (log_entry : string)
| LogFileWarning
| CsvWarning.

Record log_files := {
  console : list console_line;
  session_log : list string;
  errors_csv : csv_file
}.

(** One call of [log]: its arguments, the clock at l.51 and at l.172,
    and whether the session file and [errors.csv] can be opened. *)
Record log_call := {
  lc_level : log_level;
  lc_message : string;
  lc_source_file : option string;
  lc_function_name : option string;
  lc_to_file : bool;
  lc_clock : string;
  lc_csv_clock : string;
  lc_file_ok : bool;
  lc_csv_ok : bool
}.

(** [level.value] *)
Definition level_value (l : log_level) : string :=
  match l with
  | DEBUG => "DEBUG"
  | INFO => "INFO"
  | WARNING => "WARNING"
  | ERROR => "ERROR"
  | CRITICAL => "CRITICAL"
  end.

(** [x or default] for an optional text. *)
Definition text_or (x : option string) (default : string) : string :=
  match x with
  | Some (String c s) => String c s
  | _ => default
  end.

(** [if x:] for an optional text. *)
Definition text_given (x : option string) : bool :=
  match x with
  | Some (String _ _) => true
  | _ => false
  end.

(** ** [_append_to_csv] (l.151-168)

    [io_ok] tells whether the file can be opened. The header goes in
    when the file is new or empty; [writerow] raises on a key that is
    not a header, after the header has gone in. *)
Definition append_to_csv (file : csv_file) (row_dict : pydict)
  (headers : list string) (io_ok : bool) : csv_file :=
  if io_ok then
    let lines := match file with Some ls => ls | None => [] end in
    let opened := match lines with
                  | [] => [Header headers]
                  | _ :: _ => lines
                  end in
    if forallb (fun k => existsb (String.eqb k) headers) (dict_keys row_dict)
    then Some (opened
               ++ [Data (map (fun h => (h, match dict_get row_dict h with
                                           | Some v => v
                                           | None => JStr EmptyString
                                           end)) headers)])
    else Some opened
  else file.

(** ** [_log_to_errors_csv] (l.170-184) *)

Definition errors_headers : list string :=
  ["timestamp"; "job_name"; "level"; "source_file"; "function_name";
   "message"].

Definition error_row (job_name : option string) (c : log_call) : pydict :=
  [("timestamp", JStr (lc_csv_clock c));
   ("job_name", JStr (text_or job_name "general"));
   ("level", JStr (level_value (lc_level c)));
   ("source_file", JStr (text_or (lc_source_file c) EmptyString));
   ("function_name", JStr (text_or (lc_function_name c) EmptyString));
   ("message", JStr (lc_message c))].

Definition log_to_errors_csv (job_name : option string) (c : log_call)
  (file : csv_file) : csv_file :=
  append_to_csv file (error_row job_name c) errors_headers (lc_csv_ok c).

(** ** [log] (l.49-76) *)

Definition log_entry (c : log_call) : string :=
  (lc_clock c ++ " - " ++ level_value (lc_level c)
   ++ (if text_given (lc_source_file c)
       then " - " ++ text_or (lc_source_file c) EmptyString
       else EmptyString)
   ++ (if text_given (lc_function_name c)
       then "::" ++ text_or (lc_function_name c) EmptyString
       else EmptyString)
   ++ " - " ++ lc_message c)%string.

(** l.75 *)
Definition goes_to_errors (l : log_level) : bool :=
  match l with
  | ERROR | CRITICAL => true
  | _ => false
  end.

Definition log (job_name : option string) (o : log_files) (c : log_call)
  : log_files :=
  let printed := console o ++ [Entry (log_entry c)] in
  let o1 :=
    if lc_to_file c then
      if lc_file_ok c
      then {| console := printed;
              session_log := session_log o ++ [log_entry c];
              errors_csv := errors_csv o |}
      else {| console := printed ++ [LogFileWarning];
              session_log := session_log o;
              errors_csv := errors_csv o |}
    else {| console := printed;
            session_log := session_log o;
            errors_csv := errors_csv o |} in
  if goes_to_errors (lc_level c) then
    {| console := if lc_csv_ok c then console o1
                  else console o1 ++ [CsvWarning];
       session_log := session_log o1;
       errors_csv := log_to_errors_csv job_name c (errors_csv o1) |}
  else o1.

(** A sequence of calls on one logger. *)
Definition log_all (job_name : option string) (o : log_files)
  (calls : list log_call) : log_files :=
  fold_left (log job_name) calls o.

(** ** What the CSV logs look like *)

(** Nothing, an empty file, or one header and data lines below it. *)
Definition one_header_on_top (file : csv_file) : Prop :=
  match file with
  | None | Some [] => True
  | Some (l :: ls) =>
      is_header l = true /\ Forall (fun x => is_header x = false) ls
  end.

(** The data lines of a file. *)
Definition data_lines (file : csv_file) : list csv_line :=
  match file with
  | None => []
  | Some ls => filter (fun l => negb (is_header l)) ls
  end.

(** The calls that reach [errors.csv]. *)
Definition recorded (calls : list log_call) : list log_call :=
  filter (fun c => goes_to_errors (lc_level c) && lc_csv_ok c) calls.

(** The row as [DictWriter] lays it out. *)
Definition laid_out (headers : list string) (row_dict : pydict) : pydict :=
  map (fun h => (h, match dict_get row_dict h with
                    | Some v => v
                    | None => JStr EmptyString
                    end)) headers.

Lemma filter_all_data ls :
  Forall (fun x => is_header x = false) ls ->
  filter is_header ls = [] /\ filter (fun l => negb (is_header l)) ls = ls.
Proof.
  induction 1 as [|x ls Hx _ [IH1 IH2]]; cbn; [split; reflexivity|].
  rewrite Hx. cbn. rewrite IH1, IH2. split; reflexivity.
Qed.

(** Appending keeps a CSV log in shape: one header on top, written when
    the file was absent or empty, never a second one; a row whose keys
    are all headers adds one data line, laid out in header order with
    empty text for missing keys; a row with a foreign key adds nothing
    below the header; a file that cannot be opened is left as it was. *)
Theorem append_keeps_one_header file row_dict headers io_ok :
  one_header_on_top file ->
  one_header_on_top (append_to_csv file row_dict headers io_ok) /\
  (io_ok = true ->
   header_count (append_to_csv file row_dict headers io_ok) = 1%nat) /\
  (io_ok = true ->
   data_lines (append_to_csv file row_dict headers io_ok)
   = data_lines file
     ++ (if forallb (fun k => existsb (String.eqb k) headers)
              (dict_keys row_dict)
         then [Data (laid_out headers row_dict)]
         else [])) /\
  (io_ok = false -> append_to_csv file row_dict headers io_ok = file).
Proof.
  intros Hf. unfold append_to_csv. fold (laid_out headers row_dict).
  destruct io_ok.
  2:{ repeat split; trivial; discriminate. }
  set (ok := forallb _ (dict_keys row_dict)).
  destruct file as [[|l ls]|]; cbn in Hf |- *.
  - destruct ok; cbn; repeat split; trivial; try discriminate.
    repeat constructor.
  - destruct Hf as [Hl Hls]. destruct (filter_all_data _ Hls) as [E1 E2].
    destruct ok; cbn; rewrite Hl; cbn.
    + rewrite !filter_app, E1, E2. cbn. repeat split; trivial;
        try discriminate.
      apply Forall_app. split; [exact Hls|repeat constructor].
    + rewrite E1, E2, app_nil_r. repeat split; trivial; discriminate.
  - destruct ok; cbn; repeat split; trivial; try discriminate.
    repeat constructor.
Qed.

Lemma laid_out_error_row job_name c :
  forallb (fun k => existsb (String.eqb k) errors_headers)
    (dict_keys (error_row job_name c)) = true /\
  laid_out errors_headers (error_row job_name c) = error_row job_name c.
Proof. split; reflexivity. Qed.

Lemma log_errors_csv job_name o c :
  errors_csv (log job_name o c)
  = if goes_to_errors (lc_level c)
    then log_to_errors_csv job_name c (errors_csv o)
    else errors_csv o.
Proof.
  unfold log. destruct (goes_to_errors (lc_level c));
    destruct (lc_to_file c); destruct (lc_file_ok c); reflexivity.
Qed.

Lemma log_to_errors_csv_started job_name c h rows :
  log_to_errors_csv job_name c (Some (Header h :: map Data rows))
  = if lc_csv_ok c
    then Some (Header h :: map Data (rows ++ [error_row job_name c]))
    else Some (Header h :: map Data rows).
Proof.
  unfold log_to_errors_csv, append_to_csv. destruct (lc_csv_ok c);
    [|reflexivity].
  fold (laid_out errors_headers (error_row job_name c)).
  destruct (laid_out_error_row job_name c) as [-> ->].
  rewrite map_app. reflexivity.
Qed.

Lemma log_all_started job_name calls o h rows :
  errors_csv o = Some (Header h :: map Data rows) ->
  errors_csv (log_all job_name o calls)
  = Some (Header h
          :: map Data (rows ++ map (error_row job_name) (recorded calls))).
Proof.
  revert o rows. induction calls as [|c calls IH]; intros o rows Ho.
  - cbn. rewrite app_nil_r. exact Ho.
  - cbn [log_all fold_left]. fold (log_all job_name (log job_name o c) calls).
    unfold recorded. cbn [filter]. fold (recorded calls).
    pose proof (log_errors_csv job_name o c) as E. rewrite Ho in E.
    rewrite log_to_errors_csv_started in E.
    destruct (goes_to_errors (lc_level c)); cbn [andb].
    + destruct (lc_csv_ok c).
      * rewrite (IH _ _ E). cbn [map]. rewrite <- app_assoc. reflexivity.
      * apply (IH _ _ E).
    + apply (IH _ _ E).
Qed.

(** On a logger whose [errors.csv] is absent or empty, after any
    sequence of calls: if no ERROR or CRITICAL call could open the
    file it is as before; otherwise it is one header and one line for
    each such call, in the order of the calls, whatever the calls say
    about the session file ([to_file]). Calls of the other levels
    leave no line. *)
Theorem errors_csv_after_logging job_name o calls :
  errors_csv o = None \/ errors_csv o = Some [] ->
  errors_csv (log_all job_name o calls)
  = match recorded calls with
    | [] => errors_csv o
    | _ :: _ =>
        Some (Header errors_headers
              :: map Data (map (error_row job_name) (recorded calls)))
    end.
Proof.
  revert o. induction calls as [|c calls IH]; intros o Ho; [reflexivity|].
  cbn [log_all fold_left]. fold (log_all job_name (log job_name o c) calls).
  unfold recorded. cbn [filter]. fold (recorded calls).
  pose proof (log_errors_csv job_name o c) as E.
  destruct (goes_to_errors (lc_level c)); cbn [andb].
  - destruct (lc_csv_ok c) eqn:Eok.
    + assert (E' : errors_csv (log job_name o c)
                   = Some (Header errors_headers
                           :: map Data [error_row job_name c])).
      { rewrite E. unfold log_to_errors_csv, append_to_csv. rewrite Eok.
        destruct Ho as [-> | ->]; reflexivity. }
      rewrite (log_all_started _ _ _ _ _ E'). reflexivity.
    + assert (E' : errors_csv (log job_name o c) = errors_csv o).
      { rewrite E. unfold log_to_errors_csv, append_to_csv. rewrite Eok.
        reflexivity. }
      rewrite IH by (rewrite E'; exact Ho). rewrite E'. reflexivity.
  - rewrite IH by (rewrite E; exact Ho). rewrite E. reflexivity.
Qed.

(** * Loading the files ([data_loader.py])

    The file system as [load_data] sees it: the entries of a directory
    with their [isfile] ([None]: no such directory), and what
    [pd.read_csv] and [pd.read_excel] do with a path. *)

Inductive read_result :=
| Frame (rows : list pydict)
| DecodeError
| OtherError.

Record file_system := {
  listdir : string -> option (list (string * bool));
  read_csv : string -> string -> read_result;
  read_excel : string -> read_result
}.

(** l.14-23, and l.92-95: the regular files that are not hidden. *)
Definition list_files (fs : file_system) (directory : string)
  : option (list string) :=
  match listdir fs directory with
  | None => None
  | Some entries =>
      Some (map fst (filter (fun e => snd e && negb (String.prefix "." (fst e)))
                       entries))
  end.

(** [s.endswith(suffix)] *)
Definition ends_with (suffix s : string) : bool :=
  (String.length suffix <=? String.length s)%nat
  && String.eqb (substring (String.length s - String.length suffix)
                   (String.length suffix) s) suffix.

(** [s.replace('.csv', '')]: every occurrence goes, from the left;
    [skip] counts the characters of an occurrence still to drop. *)
Fixpoint remove_csv (skip : nat) (s : string) : string :=
  match s with
  | EmptyString => EmptyString
  | String c s' =>
      match skip with
      | S k => remove_csv k s'
      | O => if String.prefix ".csv" s
             then remove_csv 3 s'
             else String c (remove_csv 0 s')
      end
  end.

(** [dataframes_dict[key] = df] *)
Fixpoint frames_set (d : list (string * DataFrame)) (key : string)
  (df : DataFrame) : list (string * DataFrame) :=
  match d with
  | [] => [(key, df)]
  | (k, df0) :: d' =>
      if String.eqb key k then (k, df) :: d'
      else (k, df0) :: frames_set d' key df
  end.

(** [dataframes_dict.get(key)] *)
Fixpoint frames_get (d : list (string * DataFrame)) (key : string)
  : option DataFrame :=
  match d with
  | [] => None
  | (k, df) :: d' => if String.eqb key k then Some df else frames_get d' key
  end.

(** The frame read, with [df['source_file'] = file_name]. *)
Definition loaded (file_name : string) (rows : list pydict) : DataFrame :=
  map (fun r => {| row_columns := r;
                   row_source_file := Some file_name;
                   row_json := None;
                   row_token_count := None |}) rows.

Definition encodings : list string :=
  ["utf-8-sig"; "latin-1"; "iso-8859-1"; "cp1252"].

(** The loop of l.44-57 and l.118-138: the first encoding that decodes;
    another exception ends the search. *)
Fixpoint try_encodings (read : string -> read_result) (encs : list string)
  : option (list pydict) :=
  match encs with
  | [] => None
  | encoding :: rest =>
      match read encoding with
      | Frame rows => Some rows
      | DecodeError => try_encodings read rest
      | OtherError => None
      end
  end.

Definition config_dir : string := "Configuration_Files".
Definition record_context_dir : string := "Context/Record_Context".
Definition question_context_dir : string := "Context/Question_Context".

Definition path_in (directory file_name : string) : string :=
  (directory ++ "/" ++ file_name)%string.

(** l.40-61 *)
Definition read_config (fs : file_system) (file_name : string)
  : option (list pydict) :=
  try_encodings (read_csv fs (path_in config_dir file_name)) encodings.

Fixpoint load_config (fs : file_system) (config_files : list string)
  (d : list (string * DataFrame)) : list (string * DataFrame) :=
  match config_files with
  | [] => d
  | file_name :: rest =>
      load_config fs rest
        (match read_config fs file_name with
         | Some rows =>
             frames_set d (remove_csv 0 file_name) (loaded file_name rows)
         | None => d
         end)
  end.

(** l.74-88 for one file; [None] when nothing is stored. *)
Definition read_record (fs : file_system) (file_name : string)
  : option (list pydict) :=
  if ends_with ".xlsx" file_name then
    match read_excel fs (path_in record_context_dir file_name) with
    | Frame rows => Some rows
    | _ => None
    end
  else if ends_with ".csv" file_name then
    match read_csv fs (path_in record_context_dir file_name) "utf-8-sig" with
    | Frame rows => Some rows
    | _ => None
    end
  else None.

Definition record_key (idx : nat) : string :=
  ("Record_Context_" ++ str_of_Z (Z.of_nat idx))%string.

Definition question_key (idx : nat) : string :=
  ("Question_Context_" ++ str_of_Z (Z.of_nat idx))%string.

(** l.73-88 *)
Fixpoint load_records (fs : file_system) (idx : nat)
  (record_context_files : list string) (d : list (string * DataFrame))
  : list (string * DataFrame) :=
  match record_context_files with
  | [] => d
  | file_name :: rest =>
      load_records fs (S idx) rest
        (match read_record fs file_name with
         | Some rows => frames_set d (record_key idx) (loaded file_name rows)
         | None => d
         end)
  end.

(** l.99-145 for one file; [None] when nothing is stored: the file is
    of another format, cannot be read, or has no row. *)
Definition read_question (fs : file_system) (file_name : string)
  : option (list pydict) :=
  let kept rows :=
    match rows with
    | [] => None
    | _ :: _ => Some rows
    end in
  if ends_with ".xlsx" file_name then
    match read_excel fs (path_in question_context_dir file_name) with
    | Frame rows => kept rows
    | _ => None
    end
  else if ends_with ".csv" file_name then
    match try_encodings (read_csv fs (path_in question_context_dir file_name))
            encodings with
    | Some rows => kept rows
    | None => None
    end
  else None.

(** l.98-145 *)
Fixpoint load_questions (fs : file_system) (idx : nat)
  (question_context_files : list string) (d : list (string * DataFrame))
  : list (string * DataFrame) :=
  match question_context_files with
  | [] => d
  | file_name :: rest =>
      load_questions fs (S idx) rest
        (match read_question fs file_name with
         | Some rows => frames_set d (question_key idx) (loaded file_name rows)
         | None => d
         end)
  end.

(** [None]: [sys.exit(1)]. *)
Definition load_data (fs : file_system) : option (list (string * DataFrame)) :=
  match list_files fs config_dir with
  | None => None
  | Some config_files =>
      if forallb (fun required_file =>
                    existsb (String.eqb required_file) config_files)
           required_config_files
      then
        let d1 := load_config fs config_files [] in
        match list_files fs record_context_dir with
        | None => None
        | Some [] => None
        | Some record_context_files =>
            let d2 := load_records fs 0 record_context_files d1 in
            match list_files fs question_context_dir with
            | Some question_context_files =>
                Some (load_questions fs 0 question_context_files d2)
            | None => Some d2
            end
        end
      else None
  end.

(** ** Where a loaded frame comes from *)

(** The file behind a key of the dictionary, and the rows read. *)
Definition origin (fs : file_system) (key file_name : string)
  (rows : list pydict) : Prop :=
  (exists config_files,
     list_files fs config_dir = Some config_files /\
     In file_name config_files /\
     key = remove_csv 0 file_name /\
     read_config fs file_name = Some rows) \/
  (exists record_context_files idx,
     list_files fs record_context_dir = Some record_context_files /\
     nth_error record_context_files idx = Some file_name /\
     key = record_key idx /\
     read_record fs file_name = Some rows) \/
  (exists question_context_files idx,
     list_files fs question_context_dir = Some question_context_files /\
     nth_error question_context_files idx = Some file_name /\
     key = question_key idx /\
     read_question fs file_name = Some rows /\
     rows <> []).

(** Every frame of the dictionary has its origin, under a key of its
    own. *)
Definition well_loaded (fs : file_system) (d : list (string * DataFrame))
  : Prop :=
  NoDup (map fst d) /\
  forall key df,
    In (key, df) d ->
    exists file_name rows,
      df = loaded file_name rows /\ origin fs key file_name rows.

Lemma frames_set_keys d key df k :
  In k (map fst (frames_set d key df)) <-> k = key \/ In k (map fst d).
Proof.
  induction d as [|[k0 df0] d IH]; cbn.
  - intuition.
  - destruct (String.eqb key k0) eqn:E; cbn.
    + apply String.eqb_eq in E. subst k0. intuition.
    + rewrite IH. intuition.
Qed.

Lemma frames_set_NoDup d key df :
  NoDup (map fst d) -> NoDup (map fst (frames_set d key df)).
Proof.
  induction d as [|[k0 df0] d IH]; cbn; intros H.
  - constructor; [intros []|constructor].
  - inversion H as [|? ? Hnin Hnd]; subst.
    destruct (String.eqb key k0) eqn:E; cbn.
    + constructor; assumption.
    + constructor; [|apply IH; exact Hnd].
      intros Hin. apply frames_set_keys in Hin as [->|Hin]; [|contradiction].
      rewrite String.eqb_refl in E. discriminate.
Qed.

Lemma frames_set_In d key df k df' :
  In (k, df') (frames_set d key df) ->
  (k = key /\ df' = df) \/ In (k, df') d.
Proof.
  induction d as [|[k0 df0] d IH]; cbn.
  - intros [[= <- <-]|[]]. left. split; reflexivity.
  - destruct (String.eqb key k0) eqn:E; cbn.
    + apply String.eqb_eq in E. subst k0.
      intros [[= <- <-]|H]; [left; split; reflexivity | right; right; exact H].
    + intros [H|H]; [right; left; exact H|].
      destruct (IH H) as [H'|H']; [left; exact H' | right; right; exact H'].
Qed.

Lemma frames_get_set d key df : frames_get (frames_set d key df) key = Some df.
Proof.
  induction d as [|[k0 df0] d IH]; cbn.
  - rewrite String.eqb_refl. reflexivity.
  - destruct (String.eqb key k0) eqn:E; cbn; rewrite E; [reflexivity|exact IH].
Qed.

Lemma frames_get_set_other d key df k :
  k <> key -> frames_get (frames_set d key df) k = frames_get d k.
Proof.
  intros Hne. induction d as [|[k0 df0] d IH]; cbn.
  - destruct (String.eqb k key) eqn:E; [|reflexivity].
    apply String.eqb_eq in E. contradiction.
  - destruct (String.eqb key k0) eqn:E; cbn.
    + apply String.eqb_eq in E. subst k0.
      destruct (String.eqb k key) eqn:E'; [|reflexivity].
      apply String.eqb_eq in E'. contradiction.
    + rewrite IH. reflexivity.
Qed.

Lemma frames_get_In d key df : frames_get d key = Some df -> In (key, df) d.
Proof.
  induction d as [|[k0 df0] d IH]; cbn; [discriminate|].
  destruct (String.eqb key k0) eqn:E.
  - apply String.eqb_eq in E. subst k0. intros [= <-]. left. reflexivity.
  - intros H. right. apply IH. exact H.
Qed.

Lemma well_loaded_set fs d key file_name rows :
  well_loaded fs d ->
  origin fs key file_name rows ->
  well_loaded fs (frames_set d key (loaded file_name rows)).
Proof.
  intros [Hnd Ho] Hnew. split; [apply frames_set_NoDup; exact Hnd|].
  intros k df Hin. apply frames_set_In in Hin as [[-> ->]|Hin].
  - exists file_name, rows. split; [reflexivity | exact Hnew].
  - apply Ho. exact Hin.
Qed.

Lemma load_config_well_loaded fs config_files files d :
  list_files fs config_dir = Some config_files ->
  (forall f, In f files -> In f config_files) ->
  well_loaded fs d -> well_loaded fs (load_config fs files d).
Proof.
  intros Hl. revert d. induction files as [|f files IH]; intros d Hsub Hd;
    [exact Hd|].
  cbn [load_config]. apply IH; [intros g Hg; apply Hsub; right; exact Hg|].
  destruct (read_config fs f) as [rows|] eqn:Er; [|exact Hd].
  apply well_loaded_set; [exact Hd|]. left. exists config_files.
  repeat split; trivial. apply Hsub. left. reflexivity.
Qed.

Lemma load_records_well_loaded fs record_files files idx d :
  list_files fs record_context_dir = Some record_files ->
  (forall i f, nth_error files i = Some f ->
               nth_error record_files (idx + i) = Some f) ->
  well_loaded fs d -> well_loaded fs (load_records fs idx files d).
Proof.
  intros Hl. revert idx d.
  induction files as [|f files IH]; intros idx d Hsub Hd; [exact Hd|].
  cbn [load_records]. apply IH.
  - intros i g Hg. replace (S idx + i)%nat with (idx + S i)%nat by lia.
    apply Hsub. exact Hg.
  - destruct (read_record fs f) as [rows|] eqn:Er; [|exact Hd].
    apply well_loaded_set; [exact Hd|]. right. left.
    exists record_files, idx. repeat split; trivial.
    rewrite <- (Nat.add_0_r idx). apply Hsub. reflexivity.
Qed.

Lemma read_question_rows fs f rows :
  read_question fs f = Some rows -> rows <> [].
Proof.
  unfold read_question.
  destruct (ends_with ".xlsx" f).
  - destruct (read_excel fs _) as [[|r l]| |]; try discriminate.
    intros [= <-]. discriminate.
  - destruct (ends_with ".csv" f); [|discriminate].
    destruct (try_encodings _ _) as [[|r l]|]; try discriminate.
    intros [= <-]. discriminate.
Qed.

Lemma load_questions_well_loaded fs question_files files idx d :
  list_files fs question_context_dir = Some question_files ->
  (forall i f, nth_error files i = Some f ->
               nth_error question_files (idx + i) = Some f) ->
  well_loaded fs d -> well_loaded fs (load_questions fs idx files d).
Proof.
  intros Hl. revert idx d.
  induction files as [|f files IH]; intros idx d Hsub Hd; [exact Hd|].
  cbn [load_questions]. apply IH.
  - intros i g Hg. replace (S idx + i)%nat with (idx + S i)%nat by lia.
    apply Hsub. exact Hg.
  - destruct (read_question fs f) as [rows|] eqn:Er; [|exact Hd].
    apply well_loaded_set; [exact Hd|]. right. right.
    exists question_files, idx. repeat split; trivial.
    + rewrite <- (Nat.add_0_r idx). apply Hsub. reflexivity.
    + eapply read_question_rows. exact Er.
Qed.

Lemma load_data_well_loaded fs d :
  load_data fs = Some d -> well_loaded fs d.
Proof.
  unfold load_data.
  destruct (list_files fs config_dir) as [config_files|] eqn:Ec;
    [|discriminate].
  destruct (forallb _ required_config_files); [|discriminate].
  destruct (list_files fs record_context_dir) as [[|r record_files]|] eqn:Er;
    try discriminate.
  assert (H1 : well_loaded fs (load_config fs config_files [])).
  { eapply load_config_well_loaded; eauto.
    split; [constructor | intros ? ? []]. }
  assert (H2 : well_loaded fs
                 (load_records fs 0 (r :: record_files)
                    (load_config fs config_files []))).
  { eapply load_records_well_loaded; eauto. }
  destruct (list_files fs question_context_dir) as [question_files|] eqn:Eq.
  - intros [= <-]. eapply load_questions_well_loaded; eauto.
  - intros [= <-]. exact H2.
Qed.

Lemma loaded_rows file_name rows :
  Forall (fun row => row_source_file row = Some file_name /\
                     row_json row = None /\ row_token_count row = None)
    (loaded file_name rows) /\
  map row_columns (loaded file_name rows) = rows.
Proof.
  unfold loaded. split.
  - apply Forall_map. apply Forall_forall. intros r _. cbn. auto.
  - rewrite map_map. cbn. apply map_id.
Qed.

(** In the dictionary returned, no two frames share a key, and every
    frame was read from one file, which every of its rows names in
    [source_file]: a file of the configuration folder under its name
    without [.csv], the file at position [idx] of the record folder
    under [Record_Context_idx], or likewise a file of the question
    folder, which then has at least one row. No row has a [json] or
    [token_count] yet. *)
Theorem every_frame_has_its_file fs d :
  load_data fs = Some d ->
  NoDup (map fst d) /\
  forall key df,
    In (key, df) d ->
    exists file_name rows,
      origin fs key file_name rows /\
      map row_columns df = rows /\
      Forall (fun row => row_source_file row = Some file_name /\
                         row_json row = None /\ row_token_count row = None)
        df.
Proof.
  intros H. destruct (load_data_well_loaded _ _ H) as [Hnd Ho].
  split; [exact Hnd|]. intros key df Hin.
  destruct (Ho _ _ Hin) as (file_name & rows & -> & Horigin).
  exists file_name, rows. destruct (loaded_rows file_name rows) as [H1 H2].
  repeat split; assumption.
Qed.

(** ** When loading stops the program *)

(** [load_data] ends the process exactly when the configuration folder
    is missing, a required name is not among its visible files, the
    record folder is missing, or it has no visible file. What the files
    hold plays no part: a file that cannot be read is passed over. *)
Theorem loading_stops_exactly_when fs :
  load_data fs = None <->
  list_files fs config_dir = None \/
  (exists config_files required_file,
     list_files fs config_dir = Some config_files /\
     In required_file required_config_files /\
     ~ In required_file config_files) \/
  list_files fs record_context_dir = None \/
  list_files fs record_context_dir = Some [].
Proof.
  unfold load_data.
  destruct (list_files fs config_dir) as [config_files|] eqn:Ec.
  2:{ split; auto. }
  destruct (forallb _ required_config_files) eqn:Ef.
  - destruct (list_files fs record_context_dir) as [[|r l]|] eqn:Er.
    + split; auto.
    + destruct (list_files fs question_context_dir); split;
        try discriminate;
        intros [H|[(cf & rq & Hcf & Hin & Hnin)|[H|H]]]; try discriminate;
        exfalso; injection Hcf as <-;
        rewrite forallb_forall in Ef; specialize (Ef _ Hin);
        apply existsb_exists in Ef as (x & Hx & Hxe);
        apply String.eqb_eq in Hxe; subst x; contradiction.
    + split; auto.
  - split; [intros _|reflexivity]. right. left.
    assert (Hex : exists rq, In rq required_config_files /\
                             existsb (String.eqb rq) config_files = false).
    { clear -Ef. induction required_config_files as [|rq l IH];
        [discriminate|].
      cbn in Ef. apply Bool.andb_false_iff in Ef as [H|H].
      - exists rq. split; [left; reflexivity | exact H].
      - destruct (IH H) as (x & Hx & Hxe). exists x.
        split; [right; exact Hx | exact Hxe]. }
    destruct Hex as (rq & Hin & Hfalse). exists config_files, rq.
    repeat split; trivial. intros Hc.
    assert (existsb (String.eqb rq) config_files = true).
    { apply existsb_exists. exists rq. split; [exact Hc|].
      apply String.eqb_refl. }
    congruence.
Qed.

(** ** A required file that cannot be read *)

(** The check of the required names looks at the folder, not into the
    files: when [load_data] returns and no file of the configuration
    folder that goes under the key of a required table can be read, the
    table is not in the dictionary, though its file is in the folder. *)
Theorem unreadable_required_file_is_absent fs d config_files required_file :
  load_data fs = Some d ->
  list_files fs config_dir = Some config_files ->
  In required_file required_config_files ->
  (forall file_name,
     In file_name config_files ->
     remove_csv 0 file_name = remove_csv 0 required_file ->
     read_config fs file_name = None) ->
  In required_file config_files /\
  frames_get d (remove_csv 0 required_file) = None.
Proof.
  intros H Hl Hreq Hread. split.
  { revert H. unfold load_data. rewrite Hl.
    destruct (forallb _ required_config_files) eqn:Ef; [|discriminate].
    intros _. rewrite forallb_forall in Ef. specialize (Ef _ Hreq).
    apply existsb_exists in Ef as (x & Hx & Hxe).
    apply String.eqb_eq in Hxe. subst x. exact Hx. }
  destruct (frames_get d (remove_csv 0 required_file)) as [df|] eqn:Eg;
    [exfalso|reflexivity].
  apply frames_get_In in Eg.
  destruct (load_data_well_loaded _ _ H) as [_ Ho].
  destruct (Ho _ _ Eg) as (file_name & rows & _ & Horigin).
  destruct Horigin as [(cf & Hcf & Hin & Hk & Hr)
                      |[(rf & idx & _ & _ & Hk & _)
                       |(qf & idx & _ & _ & Hk & _)]].
  - rewrite Hl in Hcf. injection Hcf as <-.
    rewrite (Hread _ Hin (eq_sym Hk)) in Hr. discriminate.
  - unfold record_key in Hk.
    cbn in Hreq. destruct Hreq as [<-|[<-|[<-|[<-|[]]]]];
      cbn in Hk; discriminate.
  - unfold question_key in Hk.
    cbn in Hreq. destruct Hreq as [<-|[<-|[<-|[<-|[]]]]];
      cbn in Hk; discriminate.
Qed.

(** * The stages on a small job

    One token for each character; the JSON text of a row stands for its
    [text] cell. Two records, three rows of labels and the questions
    table; the job leaves 50 tokens. *)

Definition sample_tokenizer : tokenizer :=
  fun s => Some (repeat 0 (String.length s)).

Definition sample_encoding_for_model (m : string) : encoding_lookup :=
  if String.eqb m "model-a" then Known sample_tokenizer else UnknownModel.

Definition sample_to_json (row : context_row) : string :=
  match dict_get (row_columns row) "text" with
  | Some (JStr s) => s
  | _ => "{}"
  end.

(** The system role is the one text [sample_loads] decodes. *)
Definition role_dumps (j : json) : string := "role-json".

Definition file_row (file_name text : string) : context_row :=
  {| row_columns := [("text", JStr text)];
     row_source_file := Some file_name;
     row_json := None;
     row_token_count := None |}.

Definition sample_job_row (limit : Z) : job_row :=
  {| settings := sample_job;
     Input_Context_Limit := Some limit;
     Input_Context_Overhead := Some 10;
     Assistant_Role := "You review records.";
     Tool_Descriptions := JStr "Reviews a record" |}.

Definition sample_questions : list question :=
  [ {| q_Job_Name := "review"; Key := "answer";
       Description := JStr "The verdict"; q_Type := JStr "string";
       enum_file_name := NoEnumColumn |};
    {| q_Job_Name := "review"; Key := "label";
       Description := JStr "The label"; q_Type := JStr "enum";
       enum_file_name := FileName "labels.csv" |};
    {| q_Job_Name := "triage"; Key := "queue";
       Description := JStr "The queue"; q_Type := JStr "string";
       enum_file_name := NoEnumColumn |};
    {| q_Job_Name := "review"; Key := "answer";
       Description := JStr "The final verdict"; q_Type := JStr "boolean";
       enum_file_name := EmptyCell |} ].

Definition sample_record_frame : string * DataFrame :=
  ("Record_Context_0",
   [file_row "records.csv" "first record"; file_row "records.csv" "second"]).

Definition sample_question_frames : list (string * DataFrame) :=
  [ ("GPA_Questions", [file_row "GPA_Questions.csv" "q"]);
    ("Question_Context_0",
     [file_row "labels.csv" "good"; file_row "labels.csv" "bad";
      file_row "labels.csv" "good"]) ].

Definition sample_dict (limit : Z) (records : list (string * DataFrame))
  (questions : option (list question)) : dataframes_dict :=
  {| job_table := Some [sample_job_row limit];
     questions_table := questions;
     frames := records ++ sample_question_frames |}.

(** The job as configured, and with a budget of 30 tokens. *)
Definition sample_loaded : dataframes_dict :=
  sample_dict 60 [sample_record_frame] (Some sample_questions).

Definition sample_tight : dataframes_dict :=
  sample_dict 40 [sample_record_frame] (Some sample_questions).

(** No record frame, and a budget of 5 tokens. *)
Definition sample_no_records : dataframes_dict :=
  sample_dict 15 [] (Some sample_questions).

Definition sample_check (d : dataframes_dict)
  : dataframes_dict * option context_allocation :=
  allocate_context sample_to_json sample_encoding_for_model None d
    "review" true.

Definition sample_checked : dataframes_dict := fst (sample_check sample_loaded).

Definition sample_allocation : context_allocation :=
  {| Total_Question_Context_Tokens := 20;
     Max_Record_Tokens := 15;
     Available_Context := 50;
     Total_Records := 2 |}.

Definition sample_built : list built_batch :=
  fst (build_batches role_dumps sample_checked "review").

(** The checked frames without the questions table. *)
Definition sample_without_questions : dataframes_dict :=
  {| job_table := job_table sample_checked;
     questions_table := None;
     frames := frames sample_checked |}.

Lemma sample_check_passes :
  sample_check sample_loaded = (sample_checked, Some sample_allocation).
Proof. vm_compute. reflexivity. Qed.

Lemma sample_budget_ready limit records questions :
  0 < limit - 10 ->
  budget_ready sample_encoding_for_model None
    (sample_dict limit records questions) "review" sample_tokenizer
    (limit - 10).
Proof.
  intros Hpos. exists [sample_job_row limit], (sample_job_row limit), [].
  exists limit, 10. repeat split; trivial. intros s. discriminate.
Qed.

Lemma validated_records_fit_witness :
  0 < Available_Context sample_allocation /\
  Available_Context sample_allocation = 50.
Proof.
  split; [|reflexivity].
  apply (validated_records_fit sample_to_json sample_encoding_for_model None
           sample_loaded "review" true sample_checked sample_allocation).
  vm_compute. reflexivity.
Defined.

Lemma allocation_figures_witness :
  exists tok e,
    token_len tok "[]" = Some e /\
    Total_Question_Context_Tokens sample_allocation
    = question_budget sample_to_json tok (frames sample_loaded) e.
Proof.
  destruct (allocation_figures sample_to_json sample_encoding_for_model None
              sample_loaded "review" true sample_checked sample_allocation)
    as (tok & e & He & Hq & _).
  - vm_compute. reflexivity.
  - exists tok, e. split; assumption.
Defined.

Lemma allocation_marks_context_rows_witness :
  map fst (frames sample_checked) = map fst (frames sample_loaded) /\
  map (fun f => map row_json (snd f)) (frames sample_checked)
  = [ [Some "first record"; Some "second"];
      [Some "q"];
      [Some "good"; Some "bad"; Some "good"] ].
Proof.
  split; [|vm_compute; reflexivity].
  apply (allocation_marks_context_rows sample_to_json
           sample_encoding_for_model None sample_loaded "review" true
           sample_checked sample_allocation).
  vm_compute. reflexivity.
Defined.

Lemma rejection_means_a_record_exceeds_witness :
  snd (sample_check sample_tight) = None.
Proof.
  apply (rejection_means_a_record_exceeds sample_to_json
           sample_encoding_for_model None sample_tight "review"
           sample_tokenizer 30).
  - apply (sample_budget_ready 40). lia.
  - exists (file_row "records.csv" "first record").
    split; [vm_compute; left; reflexivity | vm_compute; reflexivity].
Defined.

Lemma no_records_always_validates_witness :
  snd (sample_check sample_no_records)
  = Some {| Total_Question_Context_Tokens := 20;
            Max_Record_Tokens := 0;
            Available_Context := 5;
            Total_Records := 0 |}.
Proof.
  unfold sample_check.
  rewrite (no_records_always_validates sample_to_json
             sample_encoding_for_model None sample_no_records "review"
             sample_tokenizer 5).
  - vm_compute. reflexivity.
  - apply (sample_budget_ready 15). lia.
  - reflexivity.
Defined.

Lemma one_batch_per_record_witness :
  exists bs,
    build_batches role_dumps sample_checked "review" = (bs, None) /\
    batch_ids bs = [0; 1].
Proof.
  destruct (one_batch_per_record role_dumps sample_checked "review"
              [sample_job_row 60] (sample_job_row 60) [])
    as (bs & Hb & _ & Hlen & Hid & _).
  - reflexivity.
  - reflexivity.
  - vm_compute. discriminate.
  - vm_compute. repeat constructor; discriminate.
  - exists bs. split; [exact Hb|]. rewrite Hid, Hlen. reflexivity.
Defined.

Lemma checked_frames_build_witness :
  exists bs,
    build_batches role_dumps sample_checked "review" = (bs, None) /\
    Z.of_nat (List.length bs) = 2.
Proof.
  destruct (checked_frames_build role_dumps sample_to_json
              sample_encoding_for_model None sample_loaded "review" true
              sample_checked sample_allocation)
    as (bs & Hb & _ & Hlen & _).
  - vm_compute. reflexivity.
  - vm_compute. discriminate.
  - exists bs. split; [exact Hb | exact Hlen].
Defined.

Lemma checked_without_records_builds_nothing_witness :
  fst (build_batches role_dumps (fst (sample_check sample_no_records))
         "review") = [].
Proof.
  apply (checked_without_records_builds_nothing role_dumps sample_to_json
           sample_encoding_for_model None sample_no_records "review" true
           (fst (sample_check sample_no_records))
           {| Total_Question_Context_Tokens := 20;
              Max_Record_Tokens := 0;
              Available_Context := 5;
              Total_Records := 0 |}).
  - vm_compute. reflexivity.
  - reflexivity.
Defined.

Lemma developer_message_is_assistant_role_witness :
  Forall (fun b =>
            option_map (map role)
              (build_messages sample_loads role_dumps (batch b))
            = Some ["developer"; "user"; "user"; "developer"; "developer"])
    sample_built.
Proof.
  apply Forall_forall. intros b Hin.
  destruct (developer_message_is_assistant_role sample_loads role_dumps
              sample_checked "review" [sample_job_row 60]
              (sample_job_row 60) [] b) as [Hm _].
  - reflexivity.
  - reflexivity.
  - exact Hin.
  - reflexivity.
  - rewrite Hm. reflexivity.
Defined.

Lemma every_property_is_required_witness :
  json_path (create_response_format sample_loaded "review")
    (items_path ++ ["required"])
  = Some (JArr [JStr "answer"; JStr "label"]) /\
  exists properties,
    json_path (create_response_format sample_loaded "review")
      (items_path ++ ["properties"])
    = Some (JObj properties) /\
    NoDup (dict_keys properties).
Proof.
  split; [vm_compute; reflexivity|].
  destruct (every_property_is_required sample_loaded "review"
              [sample_job_row 60] (sample_job_row 60) [] sample_questions)
    as (properties & Hp & _ & Hnd & _).
  - reflexivity.
  - reflexivity.
  - reflexivity.
  - exists properties. split; assumption.
Defined.

Lemma missing_questions_table_still_builds_witness :
  exists bs,
    build_batches role_dumps sample_without_questions "review" = (bs, None) /\
    List.length bs = 2%nat.
Proof.
  destruct (missing_questions_table_still_builds role_dumps
              sample_without_questions "review" [sample_job_row 60]
              (sample_job_row 60) [])
    as (bs & Hb & Hlen & _).
  - reflexivity.
  - reflexivity.
  - reflexivity.
  - vm_compute. discriminate.
  - vm_compute. repeat constructor; discriminate.
  - exists bs. split; [exact Hb | exact Hlen].
Defined.

(** The labels are offered once each, and ["No Match"] last. *)
Example sample_enum_values :
  get_enum_values (FileName "labels.csv") (frames sample_loaded)
  = [JStr "good"; JStr "bad"; JStr "No Match"] /\
  get_enum_values (FileName "other.csv") (frames sample_loaded) = [].
Proof. vm_compute. split; reflexivity. Qed.

(** * The logger on a few calls *)

Definition sample_call (level : log_level) (message : string)
  (to_file csv_ok : bool) : log_call :=
  {| lc_level := level; lc_message := message;
     lc_source_file := Some "batch_processor.py";
     lc_function_name := None;
     lc_to_file := to_file;
     lc_clock := "2025-01-01 12:00:00";
     lc_csv_clock := "2025-01-01 12:00:00";
     lc_file_ok := true; lc_csv_ok := csv_ok |}.

Definition sample_calls : list log_call :=
  [ sample_call INFO "Loading data..." true true;
    sample_call ERROR "Failed to load API key" true true;
    sample_call WARNING "Invalid input. Please enter a valid number." false true;
    sample_call ERROR "Empty results for batch 1" false true;
    sample_call CRITICAL "disk full" true false ].

Definition fresh_logger : log_files :=
  {| console := []; session_log := []; errors_csv := None |}.

Lemma append_keeps_one_header_witness :
  header_count
    (append_to_csv (Some [Header ["a"; "b"]; Data [("a", JInt 1)]])
       [("b", JInt 2)] ["a"; "b"] true) = 1%nat.
Proof.
  apply (append_keeps_one_header
           (Some [Header ["a"; "b"]; Data [("a", JInt 1)]])
           [("b", JInt 2)] ["a"; "b"] true).
  - cbn. split; [reflexivity | repeat constructor].
  - reflexivity.
Defined.

Lemma errors_csv_after_logging_witness :
  option_map (@List.length csv_line)
    (errors_csv (log_all (Some "review") fresh_logger sample_calls))
  = Some 3%nat.
Proof.
  rewrite (errors_csv_after_logging (Some "review") fresh_logger
             sample_calls).
  - reflexivity.
  - left. reflexivity.
Defined.

(** * Loading a small folder

    The pricing file decodes under no encoding, the labels decode under
    the second one; the record folder holds a text file, a CSV file and
    a directory; one question file is empty. *)

Definition sample_listdir (directory : string) : option (list (string * bool)) :=
  if String.eqb directory "Configuration_Files" then
    Some [("GPA_Job_Configuration.csv", true); ("GPA_Questions.csv", true);
          ("API_Keys.csv", true); ("API_Pricing.csv", true);
          (".DS_Store", true)]
  else if String.eqb directory "Context/Record_Context" then
    Some [("notes.txt", true); ("records.csv", true); ("archive", false)]
  else if String.eqb directory "Context/Question_Context" then
    Some [("empty.csv", true); ("labels.csv", true)]
  else None.

Definition sample_read_csv (path encoding : string) : read_result :=
  if String.eqb path "Configuration_Files/API_Pricing.csv" then DecodeError
  else if String.eqb path "Context/Question_Context/labels.csv" then
    if String.eqb encoding "utf-8-sig" then DecodeError
    else Frame [[("label", JStr "good")]]
  else if String.eqb path "Context/Question_Context/empty.csv" then Frame []
  else Frame [[("text", JStr "row")]].

Definition sample_fs : file_system :=
  {| listdir := sample_listdir;
     read_csv := sample_read_csv;
     read_excel := fun _ => OtherError |}.

Definition sample_frames_loaded : list (string * DataFrame) :=
  match load_data sample_fs with
  | Some d => d
  | None => []
  end.

Example sample_load_data :
  load_data sample_fs = Some sample_frames_loaded /\
  map fst sample_frames_loaded
  = ["GPA_Job_Configuration"; "GPA_Questions"; "API_Keys";
     "Record_Context_1"; "Question_Context_1"].
Proof. vm_compute. split; reflexivity. Qed.

Lemma every_frame_has_its_file_witness :
  NoDup (map fst sample_frames_loaded).
Proof.
  apply (every_frame_has_its_file sample_fs sample_frames_loaded).
  vm_compute. reflexivity.
Defined.

Lemma unreadable_required_file_is_absent_witness :
  frames_get sample_frames_loaded "API_Pricing" = None.
Proof.
  apply (unreadable_required_file_is_absent sample_fs sample_frames_loaded
           ["GPA_Job_Configuration.csv"; "GPA_Questions.csv"; "API_Keys.csv";
            "API_Pricing.csv"] "API_Pricing.csv").
  - vm_compute. reflexivity.
  - vm_compute. reflexivity.
  - vm_compute. tauto.
  - intros file_name [<-|[<-|[<-|[<-|[]]]]]; vm_compute;
      solve [discriminate | reflexivity].
Defined.
